(** * ImageFlowKit: orientation corrector, three-way splitter, white-edge cropper

    A shallow embedding of the decision logic of
    [image_rotation_corrector.py], [split_images.py],
    [crop_white_edges.py] and [fix_manual_check.py], with the properties
    of the specification stated and proved against it.

    Conventions.
    - Python integers are [Z]; [//] on a positive divisor is [Z.div].
    - Python floats (similarity scores, the threshold, the channel mean)
      are idealised as rationals [Q]: the comparisons [<] and [>] on
      finite floats are the rational order, and subtraction is taken
      exact.  Equality of scores is therefore [Qeq], written [==].
    - A raster (a numpy array or a PIL image) is its shape together with
      its pixel accessor; two rasters are the same image when shape and
      all in-range pixels agree ([img_eq]).
    - Exceptions are values of [exn]; code that can raise returns
      [result].
    - What OpenCV and scikit-image compute ([cv2.cvtColor], the
      similarity score) stays a parameter of the corrector, failures
      included; [cv2.rotate] and PIL's lossless rotations and crop are
      written out. *)

From Stdlib Require Import ZArith QArith List Bool String Lia.
From Stdlib Require Import Permutation Sorted Lqa.
Import ListNotations.
Local Open Scope Z_scope.

Set Implicit Arguments.

(* ================================================================== *)
(** * Exceptions *)

Inductive exn : Type :=
| DecodeError                (* PIL cannot open or decode the file *)
| CvError                    (* cv2.error: invalid number of channels *)
| KeyError (k : Z)           (* dict lookup of a missing key *)
| IndexError                 (* list or array index out of range *)
| ValueError.                (* raise ValueError(...) *)

Inductive result (A : Type) : Type :=
| Ok (a : A)
| Raise (e : exn).
Arguments Ok {A} a.
Arguments Raise {A} e.

Definition bind {A B} (r : result A) (k : A -> result B) : result B :=
  match r with
  | Ok a => k a
  | Raise e => Raise e
  end.

Notation "x <- c ;; k" := (bind c (fun x => k))
  (at level 61, c at next level, right associativity).
Notation "c ;;; k" := (bind c (fun _ => k))
  (at level 61, right associativity).

(* ================================================================== *)
(** * Rasters *)

Module Raster.

Record image (A : Type) : Type := mkImage {
  height : Z;                 (* shape[0] *)
  width  : Z;                 (* shape[1] *)
  px     : Z -> Z -> A        (* px row column *)
}.
Arguments mkImage {A} height width px.

Section Generic.
Context {A : Type}.

Definition img_eq (a b : image A) : Prop :=
  height a = height b /\ width a = width b /\
  forall y x, 0 <= y < height a -> 0 <= x < width a -> px a y x = px b y x.

(** [range(n)] *)
Definition range (n : Z) : list Z := map Z.of_nat (seq 0 (Z.to_nat n)).

(** The rows of a raster, as nested lists ([ndarray.tolist()]). *)
Definition to_rows (a : image A) : list (list A) :=
  map (fun y => map (fun x => px a y x) (range (width a))) (range (height a)).

(** A raster from nested lists; [d] fills positions that do not exist. *)
Definition of_rows (d : A) (rows : list (list A)) : image A :=
  mkImage (Z.of_nat (List.length rows))
          (Z.of_nat (List.length (hd [] rows)))
          (fun y x => nth (Z.to_nat x) (nth (Z.to_nat y) rows []) d).

(** ** OpenCV: [cv2.transpose], [cv2.flip], [cv2.rotate] *)

Definition cv_transpose (a : image A) : image A :=
  mkImage (width a) (height a) (fun y x => px a x y).

(** [cv2.flip(src, flipCode)]: 0 flips around the x-axis, a positive
    code around the y-axis, a negative code around both. *)
Definition cv_flip (flipCode : Z) (a : image A) : image A :=
  if flipCode =? 0 then
    mkImage (height a) (width a) (fun y x => px a (height a - 1 - y) x)
  else if 0 <? flipCode then
    mkImage (height a) (width a) (fun y x => px a y (width a - 1 - x))
  else
    mkImage (height a) (width a)
            (fun y x => px a (height a - 1 - y) (width a - 1 - x)).

Inductive RotateFlags : Type :=
| ROTATE_90_CLOCKWISE
| ROTATE_180
| ROTATE_90_COUNTERCLOCKWISE.

(** [cv2.rotate]: a transposition followed by a flip, or a double flip. *)
Definition cv_rotate (code : RotateFlags) (a : image A) : image A :=
  match code with
  | ROTATE_90_CLOCKWISE => cv_flip 1 (cv_transpose a)
  | ROTATE_180 => cv_flip (-1) a
  | ROTATE_90_COUNTERCLOCKWISE => cv_flip 0 (cv_transpose a)
  end.

(** ** PIL: [Image.transpose], [Image.rotate], [Image.crop] *)

Inductive Transpose : Type :=
| ROTATE_90                  (* counterclockwise *)
| PIL_ROTATE_180
| ROTATE_270.                (* counterclockwise *)

(** The three lossless rotations of PIL, each given by where every
    source pixel [(y, x)] lands: ROTATE_90 writes it to
    [(width - 1 - x, y)], ROTATE_180 to [(height - 1 - y, width - 1 - x)],
    ROTATE_270 to [(x, height - 1 - y)].  Read from the output side: *)
Definition pil_transpose (method : Transpose) (a : image A) : image A :=
  match method with
  | ROTATE_90 =>
      mkImage (width a) (height a) (fun yo xo => px a xo (width a - 1 - yo))
  | PIL_ROTATE_180 =>
      mkImage (height a) (width a)
              (fun yo xo => px a (height a - 1 - yo) (width a - 1 - xo))
  | ROTATE_270 =>
      mkImage (width a) (height a) (fun yo xo => px a (height a - 1 - xo) yo)
  end.

(** [Image.rotate(angle, expand=...)], counterclockwise by [angle]
    degrees.  Multiples of 90 take the lossless transposes (90 and 270
    only with [expand] or on a square image); any other angle goes
    through PIL's resampling affine transform, which stays a parameter. *)
Variable resample : Z -> bool -> image A -> image A.

Definition pil_rotate (angle : Z) (expand : bool) (a : image A) : image A :=
  let angle := angle mod 360 in
  if angle =? 0 then a
  else if angle =? 180 then pil_transpose PIL_ROTATE_180 a
  else if ((angle =? 90) || (angle =? 270)) &&
          (expand || (width a =? height a)) then
    pil_transpose (if angle =? 90 then ROTATE_90 else ROTATE_270) a
  else resample angle expand a.

(** The region that [Image.crop((left, upper, right, lower))] cuts out
    of a box with [left <= right] and [upper <= lower]; [Image_crop]
    below is the method itself, which refuses any other box. *)
Definition pil_crop (box : Z * Z * Z * Z) (a : image A) : image A :=
  let '(lft, upper, rgt, lower) := box in
  mkImage (lower - upper) (rgt - lft)
          (fun y x => px a (y + upper) (x + lft)).

End Generic.

Definition img_map {A B} (f : A -> B) (a : image A) : image B :=
  mkImage (height a) (width a) (fun y x => f (px a y x)).

End Raster.
Import Raster.

(* ================================================================== *)
(** * Arrays, files and paths *)

(** A numpy array of an image: shape [(h, w)] when [chans] is [None]
    (every pixel carries one value), shape [(h, w, c)] when it is
    [Some c].  A PIL image is identified with the array that
    [np.array(image)] gives. *)
Record ndarray : Type := mkArr {
  chans  : option Z;
  raster : image (list Z)
}.

Definition ndim (a : ndarray) : Z :=
  match chans a with None => 2 | Some _ => 3 end.

(** [a.shape[-1]] *)
Definition shape_last (a : ndarray) : Z :=
  match chans a with None => width (raster a) | Some c => c end.

(** A purely geometric operation leaves the channel layout alone. *)
Definition geom (f : image (list Z) -> image (list Z)) (a : ndarray) : ndarray :=
  mkArr (chans a) (f (raster a)).

Definition arr_eq (a b : ndarray) : Prop :=
  chans a = chans b /\ img_eq (raster a) (raster b).

(** An image file: its name and what decoding its bytes gives
    ([None]: corrupt or not an image). *)
Record file : Type := mkFile {
  name    : string;
  content : option ndarray
}.

Definition path : Type := list string.
Definition Path (s : string) : path := [s].
Definition joinpath (p : path) (s : string) : path := p ++ [s].
Infix "//" := joinpath (at level 40, left associativity).

(** [Image.open] followed by the first access to the pixels. *)
Definition Image_open (f : file) : result ndarray :=
  match content f with
  | Some a => Ok a
  | None => Raise DecodeError
  end.

(** [Image.crop(box)]: PIL raises [ValueError] when the right edge lies
    left of the left edge or the lower edge above the upper one. *)
Definition Image_crop (image : ndarray) (box : Z * Z * Z * Z) : result ndarray :=
  let '(lft, upper, rgt, lower) := box in
  if (rgt <? lft) || (lower <? upper) then Raise ValueError
  else Ok (geom (pil_crop box) image).

(** [image.save(output_file)] of an image that a crop has produced: an
    image without pixels cannot be written and raises [ValueError]. *)
Definition Image_save (image : ndarray) : result unit :=
  if (width (raster image) <=? 0) || (height (raster image) <=? 0)
  then Raise ValueError
  else Ok tt.

Definition ends_with (suffix s : string) : bool :=
  let n := String.length s in
  let k := String.length suffix in
  (k <=? n)%nat && String.eqb (substring (n - k) k s) suffix.

(** [folder.glob("*" + ext)] over the listing of a flat folder. *)
Definition glob (ext : string) (folder : list file) : list file :=
  filter (fun f => ends_with ext (name f)) folder.

Inductive ColorConversionCodes : Type :=
| COLOR_RGBA2RGB
| COLOR_RGB2BGR.

Definition cv2_rotate (src : ndarray) (code : RotateFlags) : ndarray :=
  geom (cv_rotate code) src.

(* ================================================================== *)
(** * Scores, dictionaries, sorting *)

Definition Qlt_bool (x y : Q) : bool :=
  match (x ?= y)%Q with Lt => true | _ => false end.

(** A Python [dict] with integer keys: insertion ordered. *)
Definition dict : Type := list (Z * Q).

Fixpoint dict_set (d : dict) (k : Z) (v : Q) : dict :=
  match d with
  | [] => [(k, v)]
  | (k', v') :: d' =>
      if k' =? k then (k', v) :: d' else (k', v') :: dict_set d' k v
  end.

Fixpoint dict_get (d : dict) (k : Z) : result Q :=
  match d with
  | [] => Raise (KeyError k)
  | (k', v') :: d' => if k' =? k then Ok v' else dict_get d' k
  end.

Definition values (d : dict) : list Q := map snd d.
Definition items (d : dict) : list (Z * Q) := d.

(** [l[i]] for [0 <= i] *)
Definition index {A} (l : list A) (i : nat) : result A :=
  match nth_error l i with
  | Some x => Ok x
  | None => Raise IndexError
  end.

Section Sorted.
Context {A : Type} (key : A -> Q).

(** [x] goes in front of the first element that is not larger: elements
    with equal keys keep their order, as in Python's stable sort. *)
Fixpoint insert_desc (x : A) (l : list A) : list A :=
  match l with
  | [] => [x]
  | y :: l' =>
      if Qle_bool (key y) (key x) then x :: y :: l'
      else y :: insert_desc x l'
  end.

(** [sorted(l, key=key, reverse=True)] *)
Fixpoint sorted_desc (l : list A) : list A :=
  match l with
  | [] => []
  | x :: l' => insert_desc x (sorted_desc l')
  end.


End Sorted.

(* ================================================================== *)
(** * image_rotation_corrector.py *)

Module Corrector.

Definition SIMILARITY_THRESHOLD : Q := 15 # 1000.

(** The candidate angles, in the order the loop visits them. *)
Definition angles : list Z := [0; 90; 180; 270].

(** The branch of the loop that builds the candidate for [angle]. *)
Definition rotated (angle : Z) (test_img : ndarray) : ndarray :=
  if angle =? 0 then test_img
  else if angle =? 90 then cv2_rotate test_img ROTATE_90_CLOCKWISE
  else if angle =? 180 then cv2_rotate test_img ROTATE_180
  else cv2_rotate test_img ROTATE_90_COUNTERCLOCKWISE.

(** The loop body after the call of the scorer: the score is stored
    under its angle and replaces the best one when it is larger. *)
Definition update (acc : Z * Q * dict) (angle : Z) (similarity : Q)
  : Z * Q * dict :=
  let '(best_angle, best_similarity, similarity_scores) := acc in
  let similarity_scores := dict_set similarity_scores angle similarity in
  if Qlt_bool best_similarity similarity
  then (angle, similarity, similarity_scores)
  else (best_angle, best_similarity, similarity_scores).

(** The run-level counters and the files written so far. *)
Record state : Type := mkState {
  corrected_count       : Z;
  already_correct_count : Z;
  failed_count          : Z;
  manual_check_count    : Z;
  saved                 : list (path * ndarray)
}.

Inductive outcome : Type :=
| ReferenceUnreadable        (* early [return]: the reference did not load *)
| NoImageFiles               (* early [return]: nothing matched the globs *)
| Summary (st : state).      (* the loop ran to its end *)

Section WithLibraries.

(** [cv2.cvtColor] is OpenCV's: what it returns, and on which arrays it
    raises [cv2.error], is left open. *)
Variable cvtColor : ndarray -> ColorConversionCodes -> result ndarray.

(** [calculate_similarity] resizes with OpenCV and scores with
    scikit-image's SSIM; the corrector only compares its results.  It
    can raise (OpenCV and scikit-image refuse some arrays), and nothing
    in [find_correct_rotation] catches that. *)
Variable calculate_similarity : ndarray -> ndarray -> result Q.

(** PIL's resampling rotation, for angles that are not multiples of 90. *)
Variable resample : Z -> bool -> image (list Z) -> image (list Z).

(** [imread_chinese]: PIL decodes, OpenCV converts the channels. *)
Definition imread_chinese (image_path : file) : result ndarray :=
  img_pil <- Image_open image_path ;;
  let img_rgb := img_pil in
  img_rgb <- (if shape_last img_rgb =? 4
              then cvtColor img_rgb COLOR_RGBA2RGB
              else Ok img_rgb) ;;
  if ndim img_rgb =? 3 then cvtColor img_rgb COLOR_RGB2BGR
  else Ok img_rgb.

(** The loop over the angles, from
    [(best_angle, best_similarity, similarity_scores)]: each pass builds
    the candidate, scores it and records the score; an exception of the
    scorer leaves the loop and the function. *)
Fixpoint score_angles (reference_img test_img : ndarray)
         (angles : list Z) (acc : Z * Q * dict) : result (Z * Q * dict) :=
  match angles with
  | [] => Ok acc
  | angle :: rest =>
      similarity <- calculate_similarity reference_img (rotated angle test_img) ;;
      score_angles reference_img test_img rest (update acc angle similarity)
  end.

(** The second entry of the scores sorted downwards, 0 without one. *)
Definition second_best (similarity_scores : dict) : Q :=
  let sorted_similarities := sorted_desc (fun v => v) (values similarity_scores) in
  if (1 <? List.length sorted_similarities)%nat
  then nth 1 sorted_similarities 0%Q
  else 0%Q.

Definition find_correct_rotation (image_path : file) (reference_img : ndarray)
  : result (Z * Q * dict * bool) :=
  match imread_chinese image_path with
  | Raise _ => Ok (0, 0%Q, ([] : dict), false)
  | Ok test_img =>
      acc <- score_angles reference_img test_img angles
                          (0, 0%Q, ([] : dict)) ;;
      let '(best_angle, best_similarity, similarity_scores) := acc in
      let second_best_similarity := second_best similarity_scores in
      let similarity_diff := (best_similarity - second_best_similarity)%Q in
      let needs_manual_check := Qlt_bool similarity_diff SIMILARITY_THRESHOLD in
      Ok (best_angle, best_similarity, similarity_scores, needs_manual_check)
  end.

(** [for deg in [0, 90, 180, 270]: ... scores[deg] ...] *)
Fixpoint print_scores (scores : dict) (degs : list Z) : result unit :=
  match degs with
  | [] => Ok tt
  | deg :: degs' => dict_get scores deg ;;; print_scores scores degs'
  end.

(** The body of the batch loop for one file.  What it saves is the
    image just decoded or a rotation of it; that write is taken to
    succeed. *)
Definition process_file (reference_img : ndarray)
           (output_path manual_check_path : path)
           (st : state) (img_file : file) : result state :=
  decision <- find_correct_rotation img_file reference_img ;;
  let '(angle, similarity, scores, needs_manual_check) := decision in
  let sorted_scores := sorted_desc snd (items scores) in
  print_scores scores [0; 90; 180; 270] ;;;
  first <- index sorted_scores 0 ;;
  second <- index sorted_scores 1 ;;
  let similarity_diff := (snd first - snd second)%Q in
  img <- Image_open img_file ;;
  let '(img_rotated, st) :=
    if negb (angle =? 0) then
      let pil_angle := if negb (angle =? 0) then 360 - angle else 0 in
      (geom (pil_rotate resample pil_angle true) img,
       mkState (corrected_count st + 1) (already_correct_count st)
               (failed_count st) (manual_check_count st) (saved st))
    else
      (img,
       mkState (corrected_count st) (already_correct_count st + 1)
               (failed_count st) (manual_check_count st) (saved st)) in
  let '(output_file, st) :=
    if needs_manual_check then
      (manual_check_path // name img_file,
       mkState (corrected_count st) (already_correct_count st)
               (failed_count st) (manual_check_count st + 1) (saved st))
    else (output_path // name img_file, st) in
  Ok (mkState (corrected_count st) (already_correct_count st)
              (failed_count st) (manual_check_count st)
              (saved st ++ [(output_file, img_rotated)])).

(** The [for] loop over the files: an exception leaves it at once. *)
Fixpoint process_all (reference_img : ndarray)
         (output_path manual_check_path : path)
         (st : state) (image_files : list file) : result state :=
  match image_files with
  | [] => Ok st
  | img_file :: rest =>
      st' <- process_file reference_img output_path manual_check_path st img_file ;;
      process_all reference_img output_path manual_check_path st' rest
  end.

Definition batch_correct_with_template
           (input_folder : list file) (output_folder : string)
           (reference_image : file) : result outcome :=
  let output_path := Path output_folder in
  let manual_check_path := Path output_folder // "manual_check" in
  match imread_chinese reference_image with
  | Raise _ => Ok ReferenceUnreadable
  | Ok reference_img =>
      let image_files :=
        glob ".png" input_folder ++ glob ".jpg" input_folder
          ++ glob ".jpeg" input_folder in
      match image_files with
      | [] => Ok NoImageFiles
      | _ =>
          st <- process_all reference_img output_path manual_check_path
                            (mkState 0 0 0 0 []) image_files ;;
          Ok (Summary st)
      end
  end.

End WithLibraries.

End Corrector.

(* ================================================================== *)
(** * split_images.py *)

Module Split.

Definition extract_part_from_image
           (image_path : file) (output_folder : string)
           (part_index : Z) (direction : string) : result (path * ndarray) :=
  let output_path := Path output_folder in
  image <- Image_open image_path ;;
  let width := width (raster image) in
  let height := height (raster image) in
  if negb (existsb (Z.eqb part_index) [1; 2; 3]) then Raise ValueError
  else
    let i := part_index - 1 in
    extracted_image <-
      (if String.eqb direction "horizontal" then
         let part_width := width / 3 in
         let lft := i * part_width in
         let rgt := if i <? 2 then (i + 1) * part_width else width in
         Image_crop image (lft, 0, rgt, height)
       else
         let part_height := height / 3 in
         let top := i * part_height in
         let bottom := if i <? 2 then (i + 1) * part_height else height in
         Image_crop image (0, top, width, bottom)) ;;
    let output_file := output_path // name image_path in
    Image_save extracted_image ;;;
    Ok (output_file, extracted_image).

End Split.

(* ================================================================== *)
(** * crop_white_edges.py *)

Module Crop.

(** [np.mean(img_array, axis=2)] at one pixel of a [c]-channel array. *)
Definition mean (c : Z) (p : list Z) : Q :=
  Qdiv (inject_Z (fold_right Z.add 0 p)) (inject_Z c).

(** [np.where(cond)] on an [h] by [w] array: the row indices and the
    column indices of the hits, in row-major order. *)
Definition np_where (cond : Z -> Z -> bool) (h w : Z) : list Z * list Z :=
  let hits :=
    flat_map (fun y =>
      flat_map (fun x => if cond y x then [(y, x)] else []) (range w))
      (range h) in
  (map fst hits, map snd hits).

Definition list_min (l : list Z) : Z := fold_right Z.min (hd 0 l) l.
Definition list_max (l : list Z) : Z := fold_right Z.max (hd 0 l) l.

(** [img_array[:, :, :3]]: a third index needs a third axis. *)
Definition first_three_channels (img_array : ndarray) : result ndarray :=
  match chans img_array with
  | Some c => Ok (mkArr (Some (Z.min c 3)) (img_map (firstn 3) (raster img_array)))
  | None => Raise IndexError
  end.

(** The grayscale plane the white test looks at. *)
Definition gray_of (img_array : ndarray) : image Q :=
  match chans img_array with
  | Some c => img_map (mean c) (raster img_array)
  | None => img_map (fun p => inject_Z (hd 0 p)) (raster img_array)
  end.

Definition crop_white_edges (image : ndarray) (threshold : Q) (padding : Z)
  : result ndarray :=
  let img_array := image in
  img_array <- (if shape_last img_array =? 4
                then first_three_channels img_array
                else Ok img_array) ;;
  let gray := gray_of img_array in
  let shape0 := height (raster img_array) in
  let shape1 := width (raster img_array) in
  let non_white_pixels :=
    np_where (fun y x => Qlt_bool (px gray y x) threshold) shape0 shape1 in
  if (List.length (fst non_white_pixels) =? 0)%nat
     || (List.length (snd non_white_pixels) =? 0)%nat
  then Ok image
  else
    let top := Z.max 0 (list_min (fst non_white_pixels) - padding) in
    let bottom := Z.min shape0 (list_max (fst non_white_pixels) + padding + 1) in
    let lft := Z.max 0 (list_min (snd non_white_pixels) - padding) in
    let rgt := Z.min shape1 (list_max (snd non_white_pixels) + padding + 1) in
    Image_crop image (lft, top, rgt, bottom).

End Crop.

(* ================================================================== *)
(** * Reading of the specification, and test data *)

Module SpecReading.



(** "write the result to the output folder (if not flagged) or a
    [manual_check] subfolder of the output folder (if flagged),
    preserving the original filename". *)
Definition routed_path (output_folder : string) (needs_manual_review : bool)
           (filename : string) : path :=
  if needs_manual_review
  then [output_folder; "manual_check"; filename]%string
  else [output_folder; filename].

(** What the batch is to write for one readable file: the reopened
    image, rotated unless the decision is 0 degrees, at its routed path. *)
Definition is_write_of
           (cvtColor : ndarray -> ColorConversionCodes -> result ndarray)
           (calculate_similarity : ndarray -> ndarray -> result Q)
           (resample : Z -> bool -> image (list Z) -> image (list Z))
           (reference_img : ndarray) (output_folder : string)
           (f : file) (w : path * ndarray) : Prop :=
  exists img test_img angle similarity scores needs_manual_check,
    Image_open f = Ok img
    /\ Corrector.imread_chinese cvtColor f = Ok test_img
    /\ Corrector.find_correct_rotation cvtColor calculate_similarity
                                       f reference_img
       = Ok (angle, similarity, scores, needs_manual_check)
    /\ w = (routed_path output_folder needs_manual_check (name f),
            if angle =? 0 then img
            else geom (pil_rotate resample (360 - angle) true) img).

(** The slice of [0, n) that part [part_index] stands for: a third of
    [n] rounded down for parts 1 and 2, whatever is left for part 3. *)
Definition third_slice (n part_index : Z) : Z * Z :=
  let i := part_index - 1 in
  if i <? 2 then (i * (n / 3), (i + 1) * (n / 3)) else (2 * (n / 3), n).

(** The three slices cut [0, n) into consecutive pieces. *)
Definition thirds_partition (n : Z) : Prop :=
  fst (third_slice n 1) = 0
  /\ snd (third_slice n 1) = fst (third_slice n 2)
  /\ snd (third_slice n 2) = fst (third_slice n 3)
  /\ snd (third_slice n 3) = n
  /\ (forall p, In p [1; 2; 3] -> fst (third_slice n p) <= snd (third_slice n p))
  /\ (forall x, 0 <= x < n ->
        exists p, In p [1; 2; 3]
                  /\ fst (third_slice n p) <= x < snd (third_slice n p)
                  /\ forall q, In q [1; 2; 3] ->
                       fst (third_slice n q) <= x < snd (third_slice n q) ->
                       q = p).

End SpecReading.

Module TestData.

(** A single-channel raster from rows of intensities. *)
Definition gray_rows (rows : list (list Z)) : ndarray :=
  mkArr None (of_rows [] (map (map (fun v => [v])) rows)).

(** A three-channel raster from rows of RGB triples. *)
Definition rgb_rows (rows : list (list (list Z))) : ndarray :=
  mkArr (Some 3) (of_rows [] rows).

(** The intensities of a single-channel raster, row by row. *)
Definition intensities (a : ndarray) : list (list Z) :=
  map (map (hd 0)) (to_rows (raster a)).

(** A stand-in for the scorer: the intensity of the candidate's top-left
    pixel, in thousandths.  The four rotations of a 2 by 2 raster bring
    each corner there once, so any four scores can be produced. *)
Definition probe_scorer (reference_img rotated : ndarray) : result Q :=
  Ok (hd 0 (px (raster rotated) 0 0) # 1000).

(** A stand-in with the range of SSIM, from -1 to 1: the intensity of
    the candidate's top-left pixel, centred at 128. *)
Definition centred_scorer (reference_img rotated : ndarray) : result Q :=
  Ok ((hd 0 (px (raster rotated) 0 0) - 128) # 128).

(** A scorer that refuses every candidate whose top-left pixel is 0 and
    scores the others like [probe_scorer]. *)
Definition picky_scorer (reference_img rotated : ndarray) : result Q :=
  if hd 0 (px (raster rotated) 0 0) =? 0 then Raise CvError
  else probe_scorer reference_img rotated.

(** No resampling is ever requested in the examples. *)
Definition no_resample (angle : Z) (expand : bool) (a : image (list Z)) :=
  a.

(** Nor any channel conversion: the images of the examples have a
    single channel and are not four pixels wide. *)
Definition no_cvtColor (src : ndarray) (code : ColorConversionCodes)
  : result ndarray :=
  Raise CvError.

Definition reference_img : ndarray := gray_rows [[900; 100]; [200; 300]].

Definition reference_png : file := mkFile "reference.png" (Some reference_img).

Definition corrupt_png : file := mkFile "broken.png" None.

(** Scores 0.9, 0.1, 0.3, 0.2: upright, and clearly so. *)
Definition upright_png : file :=
  mkFile "upright.png" (Some (gray_rows [[900; 200]; [100; 300]])).

(** Scores 0.1, 0.9, 0.3, 0.2: a quarter turn clockwise is clearly best. *)
Definition turned_jpg : file :=
  mkFile "turned.jpg" (Some (gray_rows [[100; 200]; [900; 300]])).

(** Scores 0.9, 0.3, 0.9, 0.3: 0 and 180 degrees tie for the best. *)
Definition tie_png : file :=
  mkFile "tie.png" (Some (gray_rows [[900; 300]; [300; 900]])).

(** Scores 0.515, 0.5, 0.1, 0.2: the margin is the threshold itself. *)
Definition boundary_png : file :=
  mkFile "boundary.png" (Some (gray_rows [[515; 200]; [500; 100]])).

(** Scores 0.514, 0.5, 0.1, 0.2: the margin is just below the threshold. *)
Definition close_jpeg : file :=
  mkFile "close.jpeg" (Some (gray_rows [[514; 200]; [500; 100]])).

(** Scores -0.5 at every angle, which the SSIM of scikit-image can give
    although [calculate_similarity] documents the range 0 to 1. *)
Definition inverted_png : file :=
  mkFile "inverted.png" (Some (gray_rows [[-500; -500]; [-500; -500]])).

(** Scored by [centred_scorer]: -64/128, -16/128, -32/128 and -24/128
    at 0, 90, 180 and 270 degrees; all negative, a quarter turn
    clockwise the least bad. *)
Definition negative_png : file :=
  mkFile "negative.png" (Some (gray_rows [[64; 104]; [112; 96]])).

(** Scores 0.4 and 0.2 at 0 and 270 degrees, a refusal at 90 degrees
    when scored by [picky_scorer]. *)
Definition refused_png : file :=
  mkFile "refused.png" (Some (gray_rows [[400; 200]; [0; 300]])).

(** A readable image of 2 by 2 pixels. *)
Definition small_png : file :=
  mkFile "small.png" (Some (gray_rows [[1; 2]; [3; 4]])).

End TestData.

(* ================================================================== *)
(** * The batch loops of the other tools *)

(** The listing every batch function builds: three globs, one after
    the other. *)
Definition image_files (folder : list file) : list file :=
  glob ".png" folder ++ glob ".jpg" folder ++ glob ".jpeg" folder.

(** One row of a raster. *)
Definition row {A} (a : image A) (y : Z) : list A :=
  map (fun x => px a y x) (range (width a)).

(** A name one of the three globs matches. *)
Definition is_image_name (s : string) : bool :=
  ends_with ".png" s || ends_with ".jpg" s || ends_with ".jpeg" s.

(** [img_file.unlink()]: the entry of that name leaves the folder. *)
Definition unlink (img_file : file) (folder : list file) : list file :=
  filter (fun f => negb (String.eqb (name f) (name img_file))) folder.

(** The counters of a batch with a [try] around each file, and the
    files written. *)
Record tally : Type := mkTally {
  success_count : Z;
  failed_count  : Z;
  written       : list (path * ndarray)
}.

Inductive batch_outcome : Type :=
| NoImages                   (* early [return]: nothing matched the globs *)
| Report (t : tally).        (* the loop ran to its end *)

(** [try: ... success_count += 1 / except Exception: failed_count += 1]
    around the work on one file. *)
Definition tried (work : file -> result (path * ndarray))
           (t : tally) (img_file : file) : tally :=
  match work img_file with
  | Ok w => mkTally (success_count t + 1) (failed_count t) (written t ++ [w])
  | Raise _ => mkTally (success_count t) (failed_count t + 1) (written t)
  end.

(** What the files on which [work] succeeds give, in order. *)
Definition results (work : file -> result (path * ndarray))
           (files : list file) : list (path * ndarray) :=
  flat_map (fun f => match work f with Ok w => [w] | Raise _ => [] end) files.

Definition is_ok {A} (r : result A) : bool :=
  match r with Ok _ => true | Raise _ => false end.

(** The file can be decoded, to an image that has pixels and is not a
    single-channel image four pixels wide. *)
Definition croppable (f : file) : bool :=
  match content f with
  | Some img =>
      match chans img with
      | None => negb (width (raster img) =? 4)
      | Some _ => true
      end
      && (0 <? width (raster img)) && (0 <? height (raster img))
  | None => false
  end.

(** The file can be decoded, to an image that has pixels and, for the
    parts 1 and 2, at least three of them along the direction of the
    split. *)
Definition splittable (part_index : Z) (direction : string) (f : file) : bool :=
  match content f with
  | Some img =>
      let w := width (raster img) in
      let h := height (raster img) in
      (0 <? w) && (0 <? h)
      && ((part_index =? 3)
          || (3 <=? (if String.eqb direction "horizontal" then w else h)))
  | None => false
  end.

Module CropBatch.

(** [imread_chinese] of crop_white_edges.py: PIL only. *)
Definition imread_chinese (image_path : file) : result ndarray :=
  Image_open image_path.

(** The body of the [try] for one file. *)
Definition crop_file (output_path : path) (threshold : Q) (padding : Z)
           (img_file : file) : result (path * ndarray) :=
  img <- imread_chinese img_file ;;
  cropped_img <- Crop.crop_white_edges img threshold padding ;;
  let output_file := output_path // name img_file in
  Image_save cropped_img ;;;
  Ok (output_file, cropped_img).

Definition batch_crop_white_edges
           (input_folder : list file) (output_folder : string)
           (threshold : Q) (padding : Z) : batch_outcome :=
  let output_path := Path output_folder in
  match image_files input_folder with
  | [] => NoImages
  | files =>
      Report (fold_left (tried (crop_file output_path threshold padding))
                        files (mkTally 0 0 []))
  end.

End CropBatch.

Module SplitBatch.

(** A dictionary key of either kind. *)
Inductive key : Type :=
| StrKey (s : string)
| IntKey (z : Z).

Definition position_name : list (string * list (Z * string)) :=
  [("horizontal", [(1, "左边"); (2, "中间"); (3, "右边")]);
   ("vertical", [(1, "上边"); (2, "中间"); (3, "下边")])]%string.

Fixpoint lookup_str {V} (d : list (string * V)) (k : string) : option V :=
  match d with
  | [] => None
  | (k', v) :: d' => if String.eqb k' k then Some v else lookup_str d' k
  end.

Fixpoint lookup_int {V} (d : list (Z * V)) (k : Z) : option V :=
  match d with
  | [] => None
  | (k', v) :: d' => if k' =? k then Some v else lookup_int d' k
  end.

Inductive split_outcome : Type :=
| KeyErrorRaised (k : key)   (* from [position_name[direction][part_index]] *)
| Ran (o : batch_outcome).

Definition batch_extract_part
           (input_folder : list file) (output_folder : string)
           (part_index : Z) (direction : string) : split_outcome :=
  match lookup_str position_name direction with
  | None => KeyErrorRaised (StrKey direction)
  | Some names =>
      match lookup_int names part_index with
      | None => KeyErrorRaised (IntKey part_index)
      | Some _ =>
          match image_files input_folder with
          | [] => Ran NoImages
          | files =>
              Ran (Report
                     (fold_left
                        (tried (fun img_file =>
                                  Split.extract_part_from_image
                                    img_file output_folder part_index direction))
                        files (mkTally 0 0 [])))
          end
      end
  end.

End SplitBatch.

(* ================================================================== *)
(** * fix_manual_check.py *)

Module Fix.

(** The [manual_check] folder and the files written to the output
    folder so far. *)
Record disk : Type := mkDisk {
  manual_check : list file;
  output       : list (path * ndarray)
}.

Section WithResample.
Variable resample : Z -> bool -> image (list Z) -> image (list Z).

(** The loop: open, rotate by 180 with [expand], save under the same
    name in the output folder, delete the original.  Nothing catches
    an exception, so it leaves the loop where it stands. *)
Fixpoint rotate_each (output_path : path) (files : list file) (d : disk)
  : disk * option exn :=
  match files with
  | [] => (d, None)
  | img_file :: rest =>
      match Image_open img_file with
      | Raise e => (d, Some e)
      | Ok img =>
          let img_rotated := geom (pil_rotate resample 180 true) img in
          let output_file := output_path // name img_file in
          rotate_each output_path rest
            (mkDisk (unlink img_file (manual_check d))
                    (output d ++ [(output_file, img_rotated)]))
      end
  end.

(** [rotate_images_180]; [input_folder] is [None] when the folder does
    not exist. *)
Definition rotate_images_180
           (input_folder : option (list file)) (output_folder : string)
           (written_so_far : list (path * ndarray)) : disk * option exn :=
  let output_path := Path output_folder in
  match input_folder with
  | None => (mkDisk [] written_so_far, None)
  | Some folder =>
      match image_files folder with
      | [] => (mkDisk folder written_so_far, None)
      | files => rotate_each output_path files (mkDisk folder written_so_far)
      end
  end.

End WithResample.

End Fix.

(** What the fix leaves in the output folder for one readable file. *)
Definition is_rotated_copy
           (resample : Z -> bool -> image (list Z) -> image (list Z))
           (output_path : path) (f : file) (w : path * ndarray) : Prop :=
  exists img,
    content f = Some img
    /\ w = (output_path // name f, geom (pil_rotate resample 180 true) img).

Module Fixtures.

Definition gray (rows : list (list Z)) : ndarray := TestData.gray_rows rows.

Definition white_png : file := mkFile "white.png" (Some (gray [[255; 255; 255]])).
Definition dot_jpg : file :=
  mkFile "dot.jpg" (Some (gray [[255; 255; 255; 255; 255];
                                [255; 255; 0; 255; 255];
                                [255; 255; 255; 255; 255]])).
Definition narrow_jpeg : file :=
  mkFile "narrow.jpeg" (Some (gray [[255; 0; 255; 255]])).
Definition strip_png : file :=
  mkFile "strip.png" (Some (gray [[1; 2; 3; 4; 5; 6; 7; 8];
                                  [9; 10; 11; 12; 13; 14; 15; 16]])).
Definition notes_txt : file := mkFile "notes.txt" None.
Definition upper_PNG : file := mkFile "SCAN.PNG" (Some (gray [[1; 2]; [3; 4]])).

End Fixtures.

(* ================================================================== *)
(** * Facts about rasters and rotations *)

Module RasterFacts.

Lemma in_range (n i : Z) : In i (range n) <-> 0 <= i < n.
Proof.
  unfold range. rewrite in_map_iff. split.
  - intros (k & <- & Hk). apply in_seq in Hk. lia.
  - intros Hi. exists (Z.to_nat i). split; [lia|].
    apply in_seq. lia.
Qed.

Lemma img_eq_refl {A} (a : image A) : img_eq a a.
Proof. repeat split. Qed.

Lemma img_eq_sym {A} (a b : image A) : img_eq a b -> img_eq b a.
Proof.
  intros (Hh & Hw & Hp). repeat split; try congruence.
  intros y x Hy Hx. symmetry. apply Hp; congruence.
Qed.

Lemma img_eq_trans {A} (a b c : image A) :
  img_eq a b -> img_eq b c -> img_eq a c.
Proof.
  intros (Hh & Hw & Hp) (Hh' & Hw' & Hp'). repeat split; try congruence.
  intros y x Hy Hx. rewrite Hp by assumption. apply Hp'; congruence.
Qed.

(** Equal images list the same rows. *)
Lemma img_eq_to_rows {A} (a b : image A) :
  img_eq a b -> to_rows a = to_rows b.
Proof.
  intros (Hh & Hw & Hp). unfold to_rows. rewrite <- Hh, <- Hw.
  apply map_ext_in. intros y Hy. apply map_ext_in. intros x Hx.
  apply in_range in Hy, Hx. now apply Hp.
Qed.

Lemma img_map_eq {A B} (f : A -> B) (a b : image A) :
  img_eq a b -> img_eq (img_map f a) (img_map f b).
Proof.
  intros (Hh & Hw & Hp). repeat split; simpl; try assumption.
  intros y x Hy Hx. f_equal. now apply Hp.
Qed.

Section Rotations.
Context {A : Type}.
Implicit Types a : image A.

(** Where each source pixel lands under the three OpenCV rotations. *)
Lemma cv_rotate_90_clockwise a :
  let r := cv_rotate ROTATE_90_CLOCKWISE a in
  height r = width a /\ width r = height a /\
  forall y x, px r x (height a - 1 - y) = px a y x.
Proof.
  simpl. repeat split. intros y x. f_equal. lia.
Qed.

Lemma cv_rotate_180 a :
  let r := cv_rotate ROTATE_180 a in
  height r = height a /\ width r = width a /\
  forall y x, px r (height a - 1 - y) (width a - 1 - x) = px a y x.
Proof.
  simpl. repeat split. intros y x. f_equal; lia.
Qed.

Lemma cv_rotate_90_counterclockwise a :
  let r := cv_rotate ROTATE_90_COUNTERCLOCKWISE a in
  height r = width a /\ width r = height a /\
  forall y x, px r (width a - 1 - x) y = px a y x.
Proof.
  simpl. repeat split. intros y x. f_equal. lia.
Qed.

(** PIL's counterclockwise transposes against OpenCV's rotations. *)
Lemma pil_270_is_cv_90_clockwise a :
  img_eq (pil_transpose ROTATE_270 a) (cv_rotate ROTATE_90_CLOCKWISE a).
Proof. repeat split. Qed.

Lemma pil_180_is_cv_180 a :
  img_eq (pil_transpose PIL_ROTATE_180 a) (cv_rotate ROTATE_180 a).
Proof. repeat split. Qed.

Lemma pil_90_is_cv_90_counterclockwise a :
  img_eq (pil_transpose ROTATE_90 a) (cv_rotate ROTATE_90_COUNTERCLOCKWISE a).
Proof. repeat split. Qed.

(** Rotations commute with any pixelwise conversion. *)
Lemma cv_rotate_img_map {B} (f : A -> B) code a :
  img_eq (cv_rotate code (img_map f a)) (img_map f (cv_rotate code a)).
Proof. destruct code; repeat split. Qed.

End Rotations.

(** Four quarter turns clockwise bring every image back. *)
Lemma four_quarter_turns {A} (a : image A) :
  let q := cv_rotate ROTATE_90_CLOCKWISE in
  img_eq (q (q (q (q a)))) a.
Proof.
  repeat split. simpl. intros y x Hy Hx. f_equal; lia.
Qed.

(** [Image.crop] returns the region of a box that is not inverted, and
    returns nothing else. *)
Lemma Image_crop_valid (image : ndarray) (lft upper rgt lower : Z) :
  lft <= rgt -> upper <= lower ->
  Image_crop image (lft, upper, rgt, lower)
  = Ok (geom (pil_crop (lft, upper, rgt, lower)) image).
Proof.
  intros H1 H2. unfold Image_crop.
  destruct (Z.ltb_spec rgt lft); [lia|].
  destruct (Z.ltb_spec lower upper); [lia|]. reflexivity.
Qed.

Lemma Image_crop_ok (image cropped : ndarray) (box : Z * Z * Z * Z) :
  Image_crop image box = Ok cropped ->
  cropped = geom (pil_crop box) image
  /\ let '(lft, upper, rgt, lower) := box in lft <= rgt /\ upper <= lower.
Proof.
  destruct box as [[[lft upper] rgt] lower]. unfold Image_crop.
  destruct (Z.ltb_spec rgt lft); [discriminate|].
  destruct (Z.ltb_spec lower upper); [discriminate|].
  cbn [orb]. intros Hok. inversion Hok. repeat split; lia.
Qed.

Example rotate_90_clockwise_rows :
  to_rows (cv_rotate ROTATE_90_CLOCKWISE (of_rows 0 [[1; 2; 3]; [4; 5; 6]]))
  = [[4; 1]; [5; 2]; [6; 3]].
Proof. reflexivity. Qed.

Example rotate_180_rows :
  to_rows (cv_rotate ROTATE_180 (of_rows 0 [[1; 2; 3]; [4; 5; 6]]))
  = [[6; 5; 4]; [3; 2; 1]].
Proof. reflexivity. Qed.

Example rotate_90_counterclockwise_rows :
  to_rows (cv_rotate ROTATE_90_COUNTERCLOCKWISE (of_rows 0 [[1; 2; 3]; [4; 5; 6]]))
  = [[3; 6]; [2; 5]; [1; 4]].
Proof. reflexivity. Qed.

Example pil_rotate_270_rows :
  to_rows (pil_rotate (fun _ _ a => a) 270 true (of_rows 0 [[1; 2; 3]; [4; 5; 6]]))
  = [[4; 1]; [5; 2]; [6; 3]].
Proof. reflexivity. Qed.

End RasterFacts.

(* ================================================================== *)
(** * The rotation candidates and the rotation that is saved *)

Module RotationFacts.
Import Corrector RasterFacts.

Section Loading.
Variable cvtColor : ndarray -> ColorConversionCodes -> result ndarray.

Lemma imread_chinese_opens (f : file) (test_img : ndarray) :
  imread_chinese cvtColor f = Ok test_img -> exists img, Image_open f = Ok img.
Proof.
  unfold imread_chinese. destruct (Image_open f) as [img|e]; simpl.
  - intros _. now exists img.
  - discriminate.
Qed.

Lemma imread_chinese_corrupt (f : file) :
  content f = None -> imread_chinese cvtColor f = Raise DecodeError.
Proof.
  intros H. unfold imread_chinese, Image_open. now rewrite H.
Qed.

(** A single-channel image that is not four pixels wide is handed over
    as decoded: no conversion is requested. *)
Lemma imread_chinese_gray (f : file) (img : ndarray) :
  content f = Some img -> chans img = None -> width (raster img) <> 4 ->
  imread_chinese cvtColor f = Ok img.
Proof.
  intros Hc Hch Hw. unfold imread_chinese, Image_open, shape_last, ndim.
  rewrite Hc. cbn [bind]. rewrite Hch.
  apply Z.eqb_neq in Hw. rewrite Hw. cbn [bind]. now rewrite Hch.
Qed.

End Loading.

(** The geometry of the three rotated candidates: the channels are
    kept, height and width are swapped for 90 and 270 and kept for 180,
    and every source pixel [(y, x)] of the [h] by [w] image is found
    again, at [(x, h - 1 - y)], [(h - 1 - y, w - 1 - x)] and
    [(w - 1 - x, y)]. *)
Lemma rotated_geometry (test_img : ndarray) :
  let h := height (raster test_img) in
  let w := width (raster test_img) in
  let r90 := rotated 90 test_img in
  let r180 := rotated 180 test_img in
  let r270 := rotated 270 test_img in
  rotated 0 test_img = test_img
  /\ (chans r90 = chans test_img
      /\ height (raster r90) = w /\ width (raster r90) = h
      /\ forall y x, px (raster r90) x (h - 1 - y) = px (raster test_img) y x)
  /\ (chans r180 = chans test_img
      /\ height (raster r180) = h /\ width (raster r180) = w
      /\ forall y x,
           px (raster r180) (h - 1 - y) (w - 1 - x) = px (raster test_img) y x)
  /\ (chans r270 = chans test_img
      /\ height (raster r270) = w /\ width (raster r270) = h
      /\ forall y x, px (raster r270) (w - 1 - x) y = px (raster test_img) y x).
Proof.
  intros h w r90 r180 r270. split; [reflexivity|].
  pose proof (cv_rotate_90_clockwise (raster test_img)) as (H1 & H2 & H3).
  pose proof (cv_rotate_180 (raster test_img)) as (K1 & K2 & K3).
  pose proof (cv_rotate_90_counterclockwise (raster test_img)) as (L1 & L2 & L3).
  repeat split; assumption.
Qed.

(** PIL's counterclockwise rotation by [360 - a] with [expand] is the
    clockwise OpenCV rotation by [a]. *)
Lemma pil_rotation_is_clockwise
      (resample : Z -> bool -> image (list Z) -> image (list Z))
      (img : ndarray) (angle : Z) :
  In angle [90; 180; 270] ->
  arr_eq (geom (pil_rotate resample (360 - angle) true) img) (rotated angle img).
Proof.
  intros Ha.
  destruct Ha as [<- | [<- | [<- | []]]]; split; try reflexivity;
    unfold geom, pil_rotate; simpl.
  - apply pil_270_is_cv_90_clockwise.
  - apply pil_180_is_cv_180.
  - apply pil_90_is_cv_90_counterclockwise.
Qed.

(** A pixelwise conversion [g] that relates the array that was scored
    to the image that is saved relates their rotations too. *)
Lemma rotated_through_conversion
      (g : list Z -> list Z) (img test_img w : ndarray) (angle : Z) :
  In angle [90; 180; 270] ->
  img_eq (raster test_img) (img_map g (raster img)) ->
  arr_eq w (rotated angle img) ->
  img_eq (img_map g (raster w)) (raster (rotated angle test_img)).
Proof.
  intros Ha Hg (_ & Hgeo).
  eapply img_eq_trans; [apply img_map_eq, Hgeo|].
  assert (Hrot : forall code,
             img_eq (img_map g (cv_rotate code (raster img)))
                    (cv_rotate code (raster test_img))).
  { intros code. eapply img_eq_trans.
    - apply img_eq_sym, cv_rotate_img_map.
    - destruct Hg as (Hh & Hw & Hp). simpl in Hh, Hw.
      destruct code; repeat split; simpl; try congruence;
        intros y x Hy Hx; symmetry; rewrite Hp by lia; simpl;
        rewrite ?Hh, ?Hw; reflexivity. }
  destruct Ha as [<- | [<- | [<- | []]]]; apply Hrot.
Qed.

End RotationFacts.

(* ================================================================== *)
(** * Sorting downwards *)

Module SortFacts.
Local Open Scope Q_scope.

Lemma Qlt_bool_iff (x y : Q) : Qlt_bool x y = true <-> x < y.
Proof.
  unfold Qlt_bool. rewrite Qlt_alt.
  destruct (x ?= y); split; congruence.
Qed.

Lemma Qlt_bool_false (x y : Q) : Qlt_bool x y = false <-> y <= x.
Proof.
  rewrite <- Bool.not_true_iff_false, Qlt_bool_iff.
  split; [apply Qnot_lt_le | apply Qle_not_lt].
Qed.

Section WithKey.
Context {A : Type} (key : A -> Q).

Lemma insert_desc_perm (x : A) (l : list A) :
  Permutation (insert_desc key x l) (x :: l).
Proof.
  induction l as [|y l IH]; simpl.
  - reflexivity.
  - destruct (Qle_bool (key y) (key x)).
    + reflexivity.
    + rewrite IH. apply perm_swap.
Qed.

Lemma sorted_desc_perm (l : list A) : Permutation (sorted_desc key l) l.
Proof.
  induction l as [|x l IH]; simpl.
  - reflexivity.
  - rewrite insert_desc_perm. now constructor.
Qed.

Lemma sorted_desc_length (l : list A) :
  List.length (sorted_desc key l) = List.length l.
Proof. apply Permutation_length, sorted_desc_perm. Qed.



End WithKey.

Example sorted_desc_values :
  sorted_desc (fun v => v) [3 # 10; 9 # 10; 1 # 10; 9 # 10]
  = [9 # 10; 9 # 10; 3 # 10; 1 # 10].
Proof. reflexivity. Qed.

(** Equal keys keep their order of arrival. *)
Example sorted_desc_stable :
  sorted_desc snd [(0%Z, 1 # 2); (90%Z, 9 # 10); (180%Z, 1 # 2); (270%Z, 9 # 10)]
  = [(90%Z, 9 # 10); (270%Z, 9 # 10); (0%Z, 1 # 2); (180%Z, 1 # 2)].
Proof. reflexivity. Qed.

End SortFacts.

(* ================================================================== *)
(** * The decision of [find_correct_rotation] *)

Module DecisionFacts.
Import Corrector SortFacts.
Local Open Scope Q_scope.

Section WithScorer.
Variable cvtColor : ndarray -> ColorConversionCodes -> result ndarray.
Variable calculate_similarity : ndarray -> ndarray -> result Q.
Variables reference_img test_img : ndarray.

(** The score of a candidate on which the scorer returns. *)
Local Abbreviation score angle :=
  (match calculate_similarity reference_img (rotated angle test_img) with
   | Ok similarity => similarity
   | Raise _ => 0
   end).
Local Abbreviation step := (fun acc angle => update acc angle (score angle)).
Local Abbreviation loop :=
  (score_angles calculate_similarity reference_img test_img).

(** A loop that returns has scored every angle of its list, and what
    it returns is the fold of the loop body over the scores. *)
Lemma score_angles_ok (l : list Z) (acc r : Z * Q * dict) :
  loop l acc = Ok r ->
  (forall a, In a l ->
             calculate_similarity reference_img (rotated a test_img)
             = Ok (score a))
  /\ r = fold_left step l acc.
Proof.
  revert acc. induction l as [|a l IH]; intros acc; cbn [score_angles].
  - intros H. inversion H. split; [intros a []|reflexivity].
  - destruct (calculate_similarity reference_img (rotated a test_img))
      as [v|e] eqn:E; cbn [bind]; [|discriminate].
    intros H. destruct (IH _ H) as (Hall & Hr). split.
    + intros a' [<- | Ha']; [now rewrite E | now apply Hall].
    + rewrite Hr. cbn [fold_left]. now rewrite E.
Qed.

(** When the scorer returns on every angle of the list, so does the
    loop. *)
Lemma score_angles_scored (l : list Z) (acc : Z * Q * dict) :
  (forall a, In a l ->
             exists v, calculate_similarity reference_img (rotated a test_img)
                       = Ok v) ->
  loop l acc = Ok (fold_left step l acc).
Proof.
  revert acc. induction l as [|a l IH]; intros acc Hall; cbn [score_angles].
  - reflexivity.
  - destruct (Hall a (or_introl eq_refl)) as (v & E).
    cbn [fold_left]. rewrite E. cbn [bind].
    apply IH. intros b Hb. apply Hall. now right.
Qed.

(** A loop that raises does so with the exception of the scorer on the
    first angle that it refuses. *)
Lemma score_angles_raise (l : list Z) (acc : Z * Q * dict) (e : exn) :
  loop l acc = Raise e ->
  exists pre a post,
    l = (pre ++ a :: post)%list
    /\ (forall b, In b pre ->
          exists v, calculate_similarity reference_img (rotated b test_img)
                    = Ok v)
    /\ calculate_similarity reference_img (rotated a test_img) = Raise e.
Proof.
  revert acc. induction l as [|a l IH]; intros acc; cbn [score_angles];
    [discriminate|].
  destruct (calculate_similarity reference_img (rotated a test_img))
    as [v|e'] eqn:E; cbn [bind].
  - intros H. destruct (IH _ H) as (pre & b & post & Hl & Hpre & Hb).
    exists (a :: pre)%list, b, post. rewrite Hl. split; [reflexivity|].
    split; [|exact Hb].
    intros c [<- | Hc]; [now exists v | now apply Hpre].
  - intros H. inversion H. subst e'. exists nil, a, l.
    split; [reflexivity|]. split; [intros ? []|exact E].
Qed.

(** The dictionary only collects the scores. *)
Lemma loop_scores (l : list Z) (acc : Z * Q * dict) :
  snd (fold_left step l acc)
  = fold_left (fun d a => dict_set d a (score a)) l (snd acc).
Proof.
  revert acc. induction l as [|a l IH]; intros [[a0 b0] d0]; cbn [fold_left].
  - reflexivity.
  - rewrite IH. unfold update. now destruct (Qlt_bool b0 (score a)).
Qed.

(** The loop invariant of the running maximum: the best score bounds
    the start value and every score seen; and either nothing beat the
    start value, or the best angle is the first one on which the best
    score is reached. *)
Lemma loop_best (l : list Z) (a0 : Z) (b0 : Q) (d0 : dict) :
  let r := fold_left step l (a0, b0, d0) in
  let ba := fst (fst r) in
  let bs := snd (fst r) in
  b0 <= bs
  /\ (forall a, In a l -> score a <= bs)
  /\ ((ba = a0 /\ bs = b0)
      \/ (exists pre post,
            l = (pre ++ ba :: post)%list /\ bs = score ba /\ b0 < bs
            /\ forall a, In a pre -> score a < bs)).
Proof.
  revert a0 b0 d0. induction l as [|a l IH]; intros a0 b0 d0.
  - simpl. split; [apply Qle_refl|]. split; [intros a []|]. now left.
  - cbn [fold_left].
    assert (Hstep : step (a0, b0, d0) a
                    = if Qlt_bool b0 (score a)
                      then (a, score a, dict_set d0 a (score a))
                      else (a0, b0, dict_set d0 a (score a))) by reflexivity.
    rewrite Hstep. clear Hstep.
    destruct (Qlt_bool b0 (score a)) eqn:E.
    + apply Qlt_bool_iff in E.
      specialize (IH a (score a) (dict_set d0 a (score a))).
      cbv zeta in IH |- *.
      destruct (fold_left _ l _) as [[ba bs] d]. cbn [fst snd] in *.
      destruct IH as (Hb & Hall & Hcase).
      split; [apply Qlt_le_weak; eapply Qlt_le_trans; eassumption|].
      split.
      * intros a' [<- | Ha']; [exact Hb | now apply Hall].
      * right. destruct Hcase as [(Ha & Hs) | (pre & post & Hl & Hs & Hlt & Hpre)].
        -- subst ba bs. exists nil, l. repeat split; try assumption.
           intros ? [].
        -- exists (a :: pre)%list, post. rewrite Hl.
           repeat split; try assumption.
           ++ eapply Qlt_trans; eassumption.
           ++ intros a' [<- | Ha']; [assumption | now apply Hpre].
    + apply Qlt_bool_false in E.
      specialize (IH a0 b0 (dict_set d0 a (score a))).
      cbv zeta in IH |- *.
      destruct (fold_left _ l _) as [[ba bs] d]. cbn [fst snd] in *.
      destruct IH as (Hb & Hall & Hcase).
      split; [assumption|]. split.
      * intros a' [<- | Ha']; [eapply Qle_trans; eassumption | now apply Hall].
      * destruct Hcase as [Hsame | (pre & post & Hl & Hs & Hlt & Hpre)].
        -- now left.
        -- right. exists (a :: pre)%list, post. rewrite Hl.
           repeat split; try assumption.
           intros a' [<- | Ha']; [eapply Qle_lt_trans; eassumption | now apply Hpre].
Qed.

(** The dictionary is the full map from the four angles to their scores. *)
Lemma loop_scores_full :
  snd (fold_left step angles (0%Z, 0, (nil : dict)))
  = map (fun a => (a, score a)) angles.
Proof. rewrite loop_scores. reflexivity. Qed.

(** What the function returns once the image is loaded and scored. *)
Lemma find_correct_rotation_scored (image_path : file) :
  imread_chinese cvtColor image_path = Ok test_img ->
  (forall a, In a angles ->
             exists v, calculate_similarity reference_img (rotated a test_img)
                       = Ok v) ->
  let r := fold_left step angles (0%Z, 0, (nil : dict)) in
  let best_similarity := snd (fst r) in
  find_correct_rotation cvtColor calculate_similarity image_path reference_img
  = Ok (fst (fst r), best_similarity, snd r,
        Qlt_bool (best_similarity - second_best (snd r)) SIMILARITY_THRESHOLD).
Proof.
  intros H Hall. unfold find_correct_rotation. rewrite H.
  rewrite (score_angles_scored _ _ Hall). cbn [bind].
  cbv zeta. now destruct (fold_left _ angles _) as [[ba bs] d].
Qed.

Lemma find_correct_rotation_inv (image_path : file)
      (ba : Z) (bs : Q) (d : dict) (flag : bool) :
  imread_chinese cvtColor image_path = Ok test_img ->
  find_correct_rotation cvtColor calculate_similarity image_path reference_img
  = Ok (ba, bs, d, flag) ->
  let r := fold_left step angles (0%Z, 0, (nil : dict)) in
  (forall a, In a angles ->
             calculate_similarity reference_img (rotated a test_img)
             = Ok (score a))
  /\ ba = fst (fst r) /\ bs = snd (fst r)
  /\ d = map (fun a => (a, score a)) angles
  /\ flag = Qlt_bool (bs - second_best d) SIMILARITY_THRESHOLD.
Proof.
  intros Hload Hres. unfold find_correct_rotation in Hres. rewrite Hload in Hres.
  destruct (loop angles (0%Z, 0, (nil : dict))) as [acc|e] eqn:Hloop;
    cbn [bind] in Hres; [|discriminate].
  destruct (score_angles_ok _ _ Hloop) as (Hall & Hacc).
  assert (Hfull : snd acc = map (fun a => (a, score a)) angles)
    by (rewrite Hacc; apply loop_scores_full).
  split; [exact Hall|]. cbv zeta. rewrite <- Hacc.
  destruct acc as [[ba' bs'] d']. cbn [fst snd] in *.
  inversion Hres. subst. repeat split.
Qed.

(** A scorer that raises on a candidate makes the function raise. *)
Lemma find_correct_rotation_raise (image_path : file) (e : exn) :
  imread_chinese cvtColor image_path = Ok test_img ->
  find_correct_rotation cvtColor calculate_similarity image_path reference_img
  = Raise e ->
  exists pre a post,
    angles = (pre ++ a :: post)%list
    /\ (forall b, In b pre ->
          exists v, calculate_similarity reference_img (rotated b test_img)
                    = Ok v)
    /\ calculate_similarity reference_img (rotated a test_img) = Raise e.
Proof.
  intros Hload Hres. unfold find_correct_rotation in Hres. rewrite Hload in Hres.
  destruct (loop angles (0%Z, 0, (nil : dict))) as [acc|e'] eqn:Hloop;
    cbn [bind] in Hres.
  - destruct acc as [[ba bs] d]. discriminate.
  - inversion Hres. subst e'. eapply score_angles_raise, Hloop.
Qed.

(** With scores that are not negative, the best score is reached in the
    map, bounds the map, and the best angle is the first to reach it. *)
Lemma best_is_first_maximum (image_path : file)
      (ba : Z) (bs : Q) (d : dict) (flag : bool) :
  imread_chinese cvtColor image_path = Ok test_img ->
  (forall a v, In a angles ->
               calculate_similarity reference_img (rotated a test_img) = Ok v ->
               0 <= v) ->
  find_correct_rotation cvtColor calculate_similarity image_path reference_img
  = Ok (ba, bs, d, flag) ->
  (forall a v, In (a, v) d -> v <= bs)
  /\ exists pre v post,
       d = (pre ++ (ba, v) :: post)%list /\ v == bs
       /\ forall a' v', In (a', v') pre -> v' < bs.
Proof.
  intros Hload Hpos Hres.
  destruct (find_correct_rotation_inv _ Hload Hres) as (Hsc & Hba & Hbs & Hd & _).
  pose proof (loop_best angles 0%Z 0 (nil : dict)) as Hloop. cbv zeta in Hloop.
  rewrite <- Hba, <- Hbs in Hloop. destruct Hloop as (Hb0 & Hall & Hcase).
  split.
  - intros a v Hin. rewrite Hd in Hin. apply in_map_iff in Hin.
    destruct Hin as (a' & Heq & Ha'). inversion Heq. subst. now apply Hall.
  - destruct Hcase as [(Ha & Hs) | (pre & post & Hl & Hs & _ & Hpre)].
    + exists nil, (score 0%Z), (map (fun a => (a, score a)) (tl angles)).
      split; [rewrite Hd, Ha; reflexivity|]. split.
      * apply Qle_antisym.
        -- apply Hall. simpl. auto.
        -- rewrite Hs. apply (Hpos 0%Z); [simpl; auto|].
           apply Hsc. simpl. auto.
      * intros ? ? [].
    + exists (map (fun a => (a, score a)) pre), (score ba),
             (map (fun a => (a, score a)) post).
      split; [|split].
      * rewrite Hd, Hl, map_app. reflexivity.
      * rewrite Hs. apply Qeq_refl.
      * intros a' v' Hin. apply in_map_iff in Hin.
        destruct Hin as (a'' & Heq & Ha''). injection Heq as <- <-.
        now apply Hpre.
Qed.

(** The map of a returned decision, entry by entry. *)
Lemma scores_of_decision (image_path : file)
      (ba : Z) (bs : Q) (d : dict) (flag : bool) :
  imread_chinese cvtColor image_path = Ok test_img ->
  find_correct_rotation cvtColor calculate_similarity image_path reference_img
  = Ok (ba, bs, d, flag) ->
  exists s0 s90 s180 s270,
    d = [(0, s0); (90, s90); (180, s180); (270, s270)]%Z
    /\ calculate_similarity reference_img (rotated 0 test_img) = Ok s0
    /\ calculate_similarity reference_img (rotated 90 test_img) = Ok s90
    /\ calculate_similarity reference_img (rotated 180 test_img) = Ok s180
    /\ calculate_similarity reference_img (rotated 270 test_img) = Ok s270.
Proof.
  intros Hload Hres.
  destruct (find_correct_rotation_inv _ Hload Hres) as (Hsc & _ & _ & Hd & _).
  exists (score 0%Z), (score 90%Z), (score 180%Z), (score 270%Z).
  split; [exact Hd|].
  repeat split; apply Hsc; simpl; auto.
Qed.

End WithScorer.

Lemma values_in (d : dict) (v : Q) :
  In v (values d) <-> exists a, In (a, v) d.
Proof.
  unfold values. rewrite in_map_iff. split.
  - intros ([a v'] & <- & H). now exists a.
  - intros (a & H). now exists (a, v).
Qed.

Lemma Qle_bool_false (x y : Q) : Qle_bool x y = false -> y < x.
Proof.
  intros H. apply Qnot_le_lt. intros Hle. apply Qle_bool_iff in Hle. congruence.
Qed.



(** With scores that are not negative the returned record agrees with
    its own map: the map holds the score of each of the angles 0, 90,
    180, 270 in this order; the best score bounds every score of the
    map and is the score stored for the best angle; and every angle
    that comes before the best angle has a score strictly below it. *)
Lemma decision_consistent
      (cvtColor : ndarray -> ColorConversionCodes -> result ndarray)
      (calculate_similarity : ndarray -> ndarray -> result Q)
      (image_path : file) (reference_img test_img : ndarray)
      (best_angle : Z) (best_similarity : Q) (similarity_scores : dict)
      (needs_manual_check : bool) :
  imread_chinese cvtColor image_path = Ok test_img ->
  (forall a v, In a angles ->
               calculate_similarity reference_img (rotated a test_img) = Ok v ->
               0 <= v) ->
  find_correct_rotation cvtColor calculate_similarity image_path reference_img
  = Ok (best_angle, best_similarity, similarity_scores, needs_manual_check) ->
  map fst similarity_scores = [0; 90; 180; 270]%Z
  /\ (forall a v, In (a, v) similarity_scores -> v <= best_similarity)
  /\ exists pre v post,
       similarity_scores = (pre ++ (best_angle, v) :: post)%list
       /\ v == best_similarity
       /\ forall a' v', In (a', v') pre -> v' < best_similarity.
Proof.
  intros Hload Hpos Hres. split.
  - destruct (scores_of_decision _ _ _ _ Hload Hres)
      as (s0 & s90 & s180 & s270 & -> & _). reflexivity.
  - exact (best_is_first_maximum _ _ _ _ Hload Hpos Hres).
Qed.

(** Below 0 no score ever replaces the start value of the running
    maximum: with four negative scores the function returns the angle
    0 and the score 0, which is no score of the map. *)
Lemma negative_scores_leave_the_start_value
      (cvtColor : ndarray -> ColorConversionCodes -> result ndarray)
      (calculate_similarity : ndarray -> ndarray -> result Q)
      (image_path : file) (reference_img test_img : ndarray)
      (best_angle : Z) (best_similarity : Q) (similarity_scores : dict)
      (needs_manual_check : bool) :
  imread_chinese cvtColor image_path = Ok test_img ->
  (forall a v, In a angles ->
               calculate_similarity reference_img (rotated a test_img) = Ok v ->
               v < 0) ->
  find_correct_rotation cvtColor calculate_similarity image_path reference_img
  = Ok (best_angle, best_similarity, similarity_scores, needs_manual_check) ->
  best_angle = 0%Z /\ best_similarity = 0
  /\ forall a v, In (a, v) similarity_scores -> v < best_similarity.
Proof.
  intros Hload Hneg Hres.
  destruct (find_correct_rotation_inv _ _ _ _ Hload Hres)
    as (Hsc & Hba & Hbs & Hd & _).
  pose proof (loop_best calculate_similarity reference_img test_img
                        angles 0%Z 0 (nil : dict)) as Hloop.
  cbv zeta in Hloop. rewrite <- Hba, <- Hbs in Hloop.
  destruct Hloop as (_ & _ & [(Ha & Hs) | (pre & post & Hl & Hs & Hlt & _)]).
  - split; [exact Ha|]. split; [exact Hs|].
    intros a v Hin. rewrite Hd in Hin. apply in_map_iff in Hin.
    destruct Hin as (a' & Heq & Ha'). injection Heq as <- <-.
    rewrite Hs. apply (Hneg a'); [exact Ha' | now apply Hsc].
  - exfalso.
    assert (Hin : In best_angle angles).
    { rewrite Hl. apply in_or_app. right. now left. }
    pose proof (Hneg best_angle _ Hin (Hsc _ Hin)) as Hn.
    rewrite <- Hs in Hn. apply (Qlt_irrefl 0). eapply Qlt_trans; eassumption.
Qed.

(** C1, on a failing input.  A candidate image that loads and whose
    four scores are negative, -0.5 at 0 degrees, -0.125 at 90, -0.25 at
    180 and -0.1875 at 270: the running maximum starts at 0 and is
    replaced only by a larger score, so the function returns the angle
    0 with the best score 0 and does not flag the image.  The best
    score 0 is above every score of the map (so it is not the maximum
    of the map, nor in it), and the maximum of the map, -0.125, is held
    by the angle 90, not by the best angle 0. *)
Theorem negative_scores_break_consistency :
  let d := [(0, -64 # 128); (90, -16 # 128); (180, -32 # 128);
            (270, -24 # 128)]%Z in
  imread_chinese TestData.no_cvtColor TestData.negative_png
  = Ok (TestData.gray_rows [[64; 104]; [112; 96]]%Z)
  /\ find_correct_rotation TestData.no_cvtColor TestData.centred_scorer
                           TestData.negative_png TestData.reference_img
     = Ok (0%Z, 0, d, false)
  /\ (forall a v, In (a, v) d -> v < 0)
  /\ (forall a v, In (a, v) d -> v <= -16 # 128)
  /\ In (90%Z, -16 # 128) d
  /\ ~ 0 == -16 # 128.
Proof.
  intros d. split; [reflexivity|]. split; [reflexivity|]. split; [|split].
  - intros a v [H | [H | [H | [H | []]]]]; injection H as <- <-; reflexivity.
  - intros a v [H | [H | [H | [H | []]]]]; injection H as <- <-; discriminate.
  - split; [simpl; auto | discriminate].
Qed.






(** C6.  For a source image that loads, the loop of
    [find_correct_rotation] builds and scores exactly four candidates,
    for the angles 0, 90, 180, 270 in this order and each once: whatever
    the scorer is, when it returns [s0], [s90], [s180], [s270] on the
    image itself and on its rotations for 90, 180 and 270, the function
    returns, and the map it returns pairs 0, 90, 180, 270, in this
    order, with these scores.  The candidate for 0 is the image
    unchanged; the other three keep the channels and are the clockwise
    rotations by 90, 180 and 270 degrees: height and width are swapped
    for 90 and 270 and kept for 180, and every source pixel [(y, x)] of
    the [h] by [w] image is found again, at [(x, h - 1 - y)],
    [(h - 1 - y, w - 1 - x)] and [(w - 1 - x, y)], so nothing is
    cropped. *)
Theorem candidates_scored_in_order
        (cvtColor : ndarray -> ColorConversionCodes -> result ndarray)
        (calculate_similarity : ndarray -> ndarray -> result Q)
        (image_path : file) (reference_img test_img : ndarray)
        (s0 s90 s180 s270 : Q) :
  imread_chinese cvtColor image_path = Ok test_img ->
  calculate_similarity reference_img test_img = Ok s0 ->
  calculate_similarity reference_img (rotated 90 test_img) = Ok s90 ->
  calculate_similarity reference_img (rotated 180 test_img) = Ok s180 ->
  calculate_similarity reference_img (rotated 270 test_img) = Ok s270 ->
  let h := height (raster test_img) in
  let w := width (raster test_img) in
  let r90 := rotated 90 test_img in
  let r180 := rotated 180 test_img in
  let r270 := rotated 270 test_img in
  (exists best_angle best_similarity needs_manual_check,
      find_correct_rotation cvtColor calculate_similarity
                            image_path reference_img
      = Ok (best_angle, best_similarity,
            [(0, s0); (90, s90); (180, s180); (270, s270)]%Z,
            needs_manual_check))
  /\ NoDup [0; 90; 180; 270]%Z
  /\ rotated 0 test_img = test_img
  /\ (chans r90 = chans test_img
      /\ height (raster r90) = w /\ width (raster r90) = h
      /\ forall y x, px (raster r90) x (h - 1 - y)%Z = px (raster test_img) y x)
  /\ (chans r180 = chans test_img
      /\ height (raster r180) = h /\ width (raster r180) = w
      /\ forall y x,
           px (raster r180) (h - 1 - y)%Z (w - 1 - x)%Z
           = px (raster test_img) y x)
  /\ (chans r270 = chans test_img
      /\ height (raster r270) = w /\ width (raster r270) = h
      /\ forall y x, px (raster r270) (w - 1 - x)%Z y = px (raster test_img) y x).
Proof.
  intros Hload H0 H90 H180 H270 h w r90 r180 r270.
  split; [|split; [|exact (RotationFacts.rotated_geometry test_img)]].
  - assert (Hall : forall a, In a angles ->
               exists v, calculate_similarity reference_img (rotated a test_img)
                         = Ok v).
    { intros a [<- | [<- | [<- | [<- | []]]]]; eauto. }
    pose proof (find_correct_rotation_scored _ _ _ _ Hload Hall) as Hres.
    cbv zeta in Hres. rewrite loop_scores_full in Hres.
    cbn [map angles] in Hres.
    change (rotated 0 test_img) with test_img in Hres.
    rewrite H0, H90, H180, H270 in Hres.
    eexists _, _, _. exact Hres.
  - repeat constructor; simpl; intuition discriminate.
Qed.

Lemma candidates_scored_in_order_witness :
  exists best_angle best_similarity needs_manual_check,
    find_correct_rotation TestData.no_cvtColor TestData.probe_scorer
                          TestData.turned_jpg TestData.reference_img
    = Ok (best_angle, best_similarity,
          [(0, 100 # 1000); (90, 900 # 1000); (180, 300 # 1000);
           (270, 200 # 1000)]%Z,
          needs_manual_check).
Proof.
  exact (proj1 (@candidates_scored_in_order TestData.no_cvtColor
                  TestData.probe_scorer TestData.turned_jpg
                  TestData.reference_img
                  (TestData.gray_rows [[100; 200]; [900; 300]]%Z)
                  (100 # 1000) (900 # 1000) (300 # 1000) (200 # 1000)
                  eq_refl eq_refl eq_refl eq_refl eq_refl)).
Defined.

(** The margin 0.015 is not flagged, the margin 0.014 is. *)
Example boundary_is_not_flagged :
  find_correct_rotation TestData.no_cvtColor TestData.probe_scorer
                        TestData.boundary_png TestData.reference_img
  = Ok (0%Z, 515 # 1000,
        [(0, 515 # 1000); (90, 500 # 1000); (180, 100 # 1000);
         (270, 200 # 1000)]%Z,
        false).
Proof. reflexivity. Qed.

Example just_below_is_flagged :
  find_correct_rotation TestData.no_cvtColor TestData.probe_scorer
                        TestData.close_jpeg TestData.reference_img
  = Ok (0%Z, 514 # 1000,
        [(0, 514 # 1000); (90, 500 # 1000); (180, 100 # 1000);
         (270, 200 # 1000)]%Z,
        true).
Proof. reflexivity. Qed.

(** A scorer that raises on the candidate for 90 degrees: the function
    raises too, after the candidate for 0 has been scored. *)
Example scorer_exception_is_not_caught :
  find_correct_rotation TestData.no_cvtColor TestData.picky_scorer
                        TestData.refused_png TestData.reference_img
  = Raise CvError.
Proof. reflexivity. Qed.

End DecisionFacts.

(* ================================================================== *)
(** * The batch loop *)

Module BatchFacts.
Import Corrector SortFacts DecisionFacts SpecReading RotationFacts.

Section WithScorer.
Variable cvtColor : ndarray -> ColorConversionCodes -> result ndarray.
Variable calculate_similarity : ndarray -> ndarray -> result Q.
Variable resample : Z -> bool -> image (list Z) -> image (list Z).
Variable reference_img : ndarray.
Variables output_path manual_check_path : path.

Local Abbreviation imread := (imread_chinese cvtColor).
Local Abbreviation decide :=
  (find_correct_rotation cvtColor calculate_similarity).
Local Abbreviation process :=
  (process_file cvtColor calculate_similarity resample reference_img
                output_path manual_check_path).
Local Abbreviation run :=
  (process_all cvtColor calculate_similarity resample reference_img
               output_path manual_check_path).

(** The file loads and the scorer returns on its four candidates. *)
Local Abbreviation scored f :=
  (exists t, imread f = Ok t
             /\ forall a, In a angles ->
                  exists v, calculate_similarity reference_img (rotated a t)
                            = Ok v).

(** A file that does not load gets the empty score map, and the report
    of the scores then looks up the key 0 in it. *)
Lemma process_file_unreadable (st : state) (img_file : file) (e : exn) :
  imread img_file = Raise e ->
  process st img_file = Raise (KeyError 0).
Proof.
  intros H. unfold process_file, find_correct_rotation. now rewrite H.
Qed.

(** An exception of [find_correct_rotation] is the exception of the
    loop body. *)
Lemma process_file_raise (st : state) (img_file : file) (e : exn) :
  decide img_file reference_img = Raise e ->
  process st img_file = Raise e.
Proof.
  intros H. unfold process_file. now rewrite H.
Qed.

(** A file that loads and is scored is saved once, and only the
    counters of its own outcome move. *)
Lemma process_file_loaded (st : state) (img_file : file)
      (test_img : ndarray) (angle : Z) (similarity : Q) (scores : dict)
      (needs_manual_check : bool) :
  imread img_file = Ok test_img ->
  decide img_file reference_img
  = Ok (angle, similarity, scores, needs_manual_check) ->
  exists img st',
    Image_open img_file = Ok img
    /\ process st img_file = Ok st'
    /\ saved st'
       = saved st
         ++ [((if needs_manual_check then manual_check_path else output_path)
                // name img_file,
              if angle =? 0 then img
              else geom (pil_rotate resample (360 - angle) true) img)]
    /\ corrected_count st'
       = corrected_count st + (if angle =? 0 then 0 else 1)
    /\ already_correct_count st'
       = already_correct_count st + (if angle =? 0 then 1 else 0)
    /\ manual_check_count st'
       = manual_check_count st + (if needs_manual_check then 1 else 0)
    /\ failed_count st' = failed_count st.
Proof.
  intros Hload Hres.
  destruct (imread_chinese_opens _ _ Hload) as (img & Hopen).
  destruct (scores_of_decision _ _ _ _ Hload Hres)
    as (s0 & s90 & s180 & s270 & Hd & _).
  exists img. unfold process_file. rewrite Hres. cbn [bind].
  assert (Hprint : print_scores scores [0; 90; 180; 270] = Ok tt)
    by (rewrite Hd; reflexivity).
  rewrite Hprint. cbn [bind].
  assert (Hlen : List.length (sorted_desc snd (items scores)) = 4%nat)
    by (rewrite sorted_desc_length, Hd; reflexivity).
  destruct (sorted_desc snd (items scores)) as [|first [|second rest]];
    try discriminate Hlen.
  cbn [index nth_error bind]. rewrite Hopen. cbn [bind].
  destruct (angle =? 0); destruct needs_manual_check; cbn [negb];
    eexists; (split; [reflexivity|]); (split; [reflexivity|]);
    cbn [saved corrected_count already_correct_count manual_check_count
         failed_count]; repeat split; lia.
Qed.

(** The best angle of a returned decision is one of the four. *)
Lemma decision_angle (img_file : file) (test_img : ndarray)
      (angle : Z) (similarity : Q) (scores : dict) (needs_manual_check : bool) :
  imread img_file = Ok test_img ->
  decide img_file reference_img
  = Ok (angle, similarity, scores, needs_manual_check) ->
  In angle [0; 90; 180; 270].
Proof.
  intros Hload Hres.
  destruct (find_correct_rotation_inv _ _ _ _ Hload Hres)
    as (_ & Hba & _ & _ & _).
  pose proof (loop_best calculate_similarity reference_img test_img
                        angles 0 0%Q (nil : dict)) as Hloop.
  cbv zeta in Hloop. rewrite <- Hba in Hloop.
  destruct Hloop as (_ & _ & [(Ha & _) | (pre & post & Hl & _)]).
  - rewrite Ha. simpl. auto.
  - change [0; 90; 180; 270] with angles. rewrite Hl.
    apply in_or_app. right. now left.
Qed.

(** The three ways the loop body ends: on a file that loads and is
    scored it returns; on a file that does not load it raises
    [KeyError 0]; on a file that loads it raises the exception of the
    scorer on the first candidate that the scorer refuses. *)
Lemma process_file_cases (st : state) (img_file : file) :
  (exists st', scored img_file /\ process st img_file = Ok st')
  \/ ((exists e, imread img_file = Raise e)
      /\ process st img_file = Raise (KeyError 0))
  \/ (exists t a e,
        imread img_file = Ok t /\ In a angles
        /\ calculate_similarity reference_img (rotated a t) = Raise e
        /\ process st img_file = Raise e).
Proof.
  destruct (imread img_file) as [test_img|e] eqn:Hload.
  - destruct (decide img_file reference_img)
      as [[[[angle similarity] scores] flag]|e] eqn:Hres.
    + left.
      destruct (process_file_loaded st _ Hload Hres) as (img & st' & _ & Hp & _).
      exists st'. split; [|exact Hp]. exists test_img. split; [reflexivity|].
      destruct (find_correct_rotation_inv _ _ _ _ Hload Hres) as (Hsc & _).
      intros a Ha. eexists. now apply Hsc.
    + right. right.
      destruct (find_correct_rotation_raise _ _ _ _ Hload Hres)
        as (pre & a & post & Hl & _ & Ha).
      exists test_img, a, e. split; [reflexivity|]. split.
      * rewrite Hl. apply in_or_app. right. now left.
      * split; [exact Ha | now apply process_file_raise].
  - right. left. split; [now exists e|]. eapply process_file_unreadable, Hload.
Qed.

(** A file that is not scored makes the loop body raise. *)
Lemma process_file_not_scored (st : state) (img_file : file) :
  (exists e, imread img_file = Raise e)
  \/ (exists t a e, imread img_file = Ok t /\ In a angles
                    /\ calculate_similarity reference_img (rotated a t)
                       = Raise e) ->
  exists e, process st img_file = Raise e.
Proof.
  intros Hbad.
  destruct (process_file_cases st img_file)
    as [(st' & (t & Hload & Hall) & _) | [(_ & Hp) | (t & a & e & _ & _ & _ & Hp)]];
    [exfalso | now exists (KeyError 0) | now exists e].
  destruct Hbad as [(e & He) | (t' & a & e & Ht' & Ha & He)]; [congruence|].
  assert (t' = t) by congruence. subst t'.
  destruct (Hall a Ha) as (v & Hv). congruence.
Qed.

(** One file that is not scored, anywhere in the list, keeps the loop
    from reaching its end. *)
Lemma process_all_not_scored (image_files : list file) (st : state) :
  (exists f, In f image_files
             /\ ((exists e, imread f = Raise e)
                 \/ (exists t a e, imread f = Ok t /\ In a angles
                                   /\ calculate_similarity reference_img
                                                           (rotated a t)
                                      = Raise e))) ->
  exists e, run st image_files = Raise e.
Proof.
  revert st. induction image_files as [|f rest IH]; intros st (g & Hin & Hg).
  - destruct Hin.
  - cbn [process_all].
    destruct (process st f) as [st'|e] eqn:Hp; cbn [bind]; [|now exists e].
    apply IH. destruct Hin as [-> | Hin]; [|now exists g].
    destruct (@process_file_not_scored st g Hg) as (e & He). congruence.
Qed.

(** The first file that does not load ends the loop with [KeyError 0]
    when the files before it are scored. *)
Lemma process_all_unreadable (pre post : list file) (f : file) (e : exn)
      (st : state) :
  (forall g, In g pre -> scored g) ->
  imread f = Raise e ->
  run st (pre ++ f :: post) = Raise (KeyError 0).
Proof.
  revert st. induction pre as [|g pre IH]; intros st Hpre Hf; cbn [app process_all].
  - now rewrite (process_file_unreadable st _ Hf).
  - destruct (Hpre g (or_introl eq_refl)) as (t & Hload & Hall).
    destruct (process_file_cases st g)
      as [(st' & _ & Hp) | [((e' & He') & _) | (t' & a & e' & Ht' & Ha & He' & _)]].
    + rewrite Hp. cbn [bind]. apply IH; [|exact Hf].
      intros h Hh. apply Hpre. now right.
    + congruence.
    + assert (t' = t) by congruence. subst t'.
      destruct (Hall a Ha) as (v & Hv). congruence.
Qed.

(** No path through the loop touches [failed_count]. *)
Lemma process_all_failed_count (image_files : list file) (st st' : state) :
  run st image_files = Ok st' -> failed_count st' = failed_count st.
Proof.
  revert st. induction image_files as [|f rest IH]; intros st; cbn [process_all].
  - intros H. now inversion H.
  - destruct (process_file_cases st f)
      as [(st1 & (t & Hload & Hall) & Hp) | [(_ & Hp) | (t & a & e & _ & _ & _ & Hp)]];
      rewrite Hp; cbn [bind]; [|discriminate..].
    intros Hrun. rewrite (IH _ Hrun).
    destruct (decide f reference_img)
      as [[[[angle similarity] scores] flag]|e] eqn:Hres.
    + destruct (process_file_loaded st _ Hload Hres)
        as (img & st2 & _ & Hp' & _ & _ & _ & _ & Hf).
      congruence.
    + rewrite (process_file_raise st _ Hres) in Hp. discriminate.
Qed.

(** When every file is scored the loop runs to its end, and the first
    two counters together grow by the number of files. *)
Lemma process_all_loaded (image_files : list file) (st : state) :
  (forall f, In f image_files -> scored f) ->
  exists st',
    run st image_files = Ok st'
    /\ corrected_count st' + already_correct_count st'
       = corrected_count st + already_correct_count st
         + Z.of_nat (List.length image_files)
    /\ List.length (saved st')
       = (List.length (saved st) + List.length image_files)%nat.
Proof.
  revert st. induction image_files as [|f rest IH]; intros st Hall.
  - exists st. cbn. repeat split; lia.
  - destruct (Hall f (or_introl eq_refl)) as (t & Hload & Hsc).
    pose proof (find_correct_rotation_scored _ _ _ _ Hload Hsc) as Hres.
    cbv zeta in Hres.
    destruct (process_file_loaded st _ Hload Hres)
      as (img & st1 & _ & Hp & Hs & Hc & Ha & _ & _).
    destruct (IH st1) as (st' & Hrun & Hsum & Hlen).
    { intros g Hg. apply Hall. now right. }
    exists st'. cbn [process_all]. rewrite Hp. cbn [bind].
    split; [exact Hrun|]. split.
    + rewrite Hsum, Hc, Ha. cbn [List.length].
      match goal with |- context [if ?b then _ else _] => destruct b end; lia.
    + rewrite Hlen, Hs, length_app. cbn [List.length]. lia.
Qed.

(** When every file is scored, the files written are, one for one and
    in order, the routed outputs of the input files. *)
Lemma process_all_writes (output_folder : string)
      (image_files : list file) (st : state) :
  output_path = Path output_folder ->
  manual_check_path = Path output_folder // "manual_check" ->
  (forall f, In f image_files -> scored f) ->
  exists st' ws,
    run st image_files = Ok st'
    /\ saved st' = saved st ++ ws
    /\ Forall2 (is_write_of cvtColor calculate_similarity resample
                            reference_img output_folder) image_files ws.
Proof.
  intros Hout Hman. revert st.
  induction image_files as [|f rest IH]; intros st Hall.
  - exists st, []. cbn. rewrite app_nil_r. repeat split. constructor.
  - destruct (Hall f (or_introl eq_refl)) as (t & Hload & Hsc).
    pose proof (find_correct_rotation_scored _ _ _ _ Hload Hsc) as Hres.
    cbv zeta in Hres.
    destruct (process_file_loaded st _ Hload Hres)
      as (img & st1 & Hopen & Hp & Hs & _).
    destruct (IH st1) as (st' & ws & Hrun & Hsaved & Hws).
    { intros g Hg. apply Hall. now right. }
    eexists st', (_ :: ws). cbn [process_all]. rewrite Hp. cbn [bind].
    split; [exact Hrun|]. split.
    + rewrite Hsaved, Hs, <- app_assoc. reflexivity.
    + constructor; [|exact Hws].
      eexists img, t, _, _, _, _.
      split; [exact Hopen|]. split; [exact Hload|]. split; [exact Hres|].
      subst output_path manual_check_path.
      match goal with |- context [if ?b then _ // _ else _] => destruct b end;
        reflexivity.
Qed.

End WithScorer.

Section Batch.
Variable cvtColor : ndarray -> ColorConversionCodes -> result ndarray.
Variable calculate_similarity : ndarray -> ndarray -> result Q.
Variable resample : Z -> bool -> image (list Z) -> image (list Z).

Local Abbreviation imread := (imread_chinese cvtColor).
Local Abbreviation batch :=
  (batch_correct_with_template cvtColor calculate_similarity resample).

(** A batch with an unreadable file does not reach its summary. *)
Lemma batch_unreadable_file_raises
      (input_folder : list file) (output_folder : string)
      (reference_image : file) (reference_img : ndarray) (f : file) (e : exn) :
  imread reference_image = Ok reference_img ->
  In f (glob ".png" input_folder ++ glob ".jpg" input_folder
          ++ glob ".jpeg" input_folder) ->
  imread f = Raise e ->
  exists e', batch input_folder output_folder reference_image = Raise e'.
Proof.
  intros Href Hin Hf. unfold batch_correct_with_template. rewrite Href.
  destruct (glob ".png" input_folder ++ glob ".jpg" input_folder
              ++ glob ".jpeg" input_folder) as [|g rest] eqn:Hfiles.
  - destruct Hin.
  - destruct (@process_all_not_scored cvtColor calculate_similarity resample
                reference_img (Path output_folder)
                (Path output_folder // "manual_check")
                (g :: rest) (mkState 0 0 0 0 [])) as (e' & He').
    + exists f. split; [exact Hin|]. left. now exists e.
    + exists e'. now rewrite He'.
Qed.

(** Every summary reports 0 failed files. *)
Lemma batch_failed_count_zero
      (input_folder : list file) (output_folder : string)
      (reference_image : file) (st : state) :
  batch input_folder output_folder reference_image = Ok (Summary st) ->
  failed_count st = 0.
Proof.
  unfold batch_correct_with_template.
  destruct (imread reference_image) as [reference_img|e];
    [|discriminate].
  destruct (glob ".png" input_folder ++ glob ".jpg" input_folder
              ++ glob ".jpeg" input_folder) as [|g rest]; [discriminate|].
  destruct (process_all _ _ _ _ _ _ _ (g :: rest)) as [st'|e] eqn:Hrun;
    cbn [bind]; [|discriminate].
  intros H. inversion H. subst st'.
  now rewrite (process_all_failed_count _ _ _ _ _ _ _ _ Hrun).
Qed.

(** When every file is scored, the summary accounts for all of them. *)
Lemma batch_all_loaded
      (input_folder : list file) (output_folder : string)
      (reference_image : file) (reference_img : ndarray) :
  let image_files := glob ".png" input_folder ++ glob ".jpg" input_folder
                       ++ glob ".jpeg" input_folder in
  imread reference_image = Ok reference_img ->
  image_files <> [] ->
  (forall f, In f image_files ->
     exists t, imread f = Ok t
               /\ forall a, In a angles ->
                    exists v, calculate_similarity reference_img (rotated a t)
                              = Ok v) ->
  exists st,
    batch input_folder output_folder reference_image = Ok (Summary st)
    /\ corrected_count st + already_correct_count st + failed_count st
       = Z.of_nat (List.length image_files)
    /\ List.length (saved st) = List.length image_files.
Proof.
  intros image_files Href Hne Hall.
  unfold batch_correct_with_template. rewrite Href. fold image_files.
  destruct (@process_all_loaded cvtColor calculate_similarity resample
              reference_img
              (Path output_folder) (Path output_folder // "manual_check")
              image_files (mkState 0 0 0 0 []) Hall)
    as (st & Hrun & Hsum & Hlen).
  exists st. destruct image_files as [|g rest]; [congruence|].
  rewrite Hrun. cbn [bind]. split; [reflexivity|].
  rewrite (process_all_failed_count _ _ _ _ _ _ _ _ Hrun).
  cbn in Hsum, Hlen |- *. split; lia.
Qed.

End Batch.



(** C5.  For a candidate image that loads and whose decision has the
    best angle [a] in 90, 180, 270, the loop body of the batch returns
    and appends exactly one write to the files saved.  The image it
    writes is the reopened image after the rotation that the code
    applies to it (PIL, counterclockwise by [360 - a], with [expand]),
    and this is the clockwise rotation by [a] of the reopened image, by
    the very function that built the candidates.  The candidate that
    got the score stored under [a] is the clockwise rotation by [a] of
    the array that was loaded for scoring; so the written image, seen
    through any pixelwise conversion that relates the array loaded for
    scoring to the reopened image, is that candidate, and it is that
    candidate itself when the two are the same array. *)
Theorem saved_rotation_is_candidate
        (cvtColor : ndarray -> ColorConversionCodes -> result ndarray)
        (calculate_similarity : ndarray -> ndarray -> result Q)
        (resample : Z -> bool -> image (list Z) -> image (list Z))
        (reference_img : ndarray) (output_path manual_check_path : path)
        (st : state) (img_file : file) (img test_img : ndarray)
        (angle : Z) (similarity : Q) (scores : dict)
        (needs_manual_check : bool) :
  Image_open img_file = Ok img ->
  imread_chinese cvtColor img_file = Ok test_img ->
  find_correct_rotation cvtColor calculate_similarity img_file reference_img
  = Ok (angle, similarity, scores, needs_manual_check) ->
  In angle [90; 180; 270] ->
  exists st' output_file written,
    process_file cvtColor calculate_similarity resample reference_img
                 output_path manual_check_path st img_file
    = Ok st'
    /\ saved st' = saved st ++ [(output_file, written)]
    /\ written = geom (pil_rotate resample (360 - angle) true) img
    /\ arr_eq written (rotated angle img)
    /\ (exists v, In (angle, v) scores
                  /\ calculate_similarity reference_img (rotated angle test_img)
                     = Ok v)
    /\ (forall g : list Z -> list Z,
          img_eq (raster test_img) (img_map g (raster img)) ->
          img_eq (img_map g (raster written)) (raster (rotated angle test_img)))
    /\ (test_img = img -> arr_eq written (rotated angle test_img)).
Proof.
  intros Hopen Hload Hres Ha.
  destruct (@process_file_loaded cvtColor calculate_similarity resample
              reference_img output_path manual_check_path
              st img_file test_img angle similarity scores needs_manual_check
              Hload Hres) as (img' & st' & Hopen' & Hp & Hs & _).
  assert (img' = img) by congruence. subst img'.
  assert (Hnz : (angle =? 0) = false)
    by (destruct Ha as [<- | [<- | [<- | []]]]; reflexivity).
  rewrite Hnz in Hs.
  pose proof (pil_rotation_is_clockwise resample img Ha) as Hgeo.
  eexists st', _, _. split; [exact Hp|]. split; [exact Hs|].
  split; [reflexivity|]. split; [exact Hgeo|]. split; [|split].
  - destruct (find_correct_rotation_inv _ _ _ _ Hload Hres)
      as (Hsc & _ & _ & Hd & _).
    assert (Hin : In angle angles) by (simpl; simpl in Ha; tauto).
    eexists. split; [|exact (Hsc _ Hin)].
    rewrite Hd. apply in_map_iff. now exists angle.
  - intros g Hg. exact (@rotated_through_conversion g img test_img _ angle Ha Hg Hgeo).
  - intros ->. exact Hgeo.
Qed.

Lemma saved_rotation_is_candidate_witness :
  let img := TestData.gray_rows [[100; 200]; [900; 300]] in
  exists st' output_file written,
    process_file TestData.no_cvtColor TestData.probe_scorer
                 TestData.no_resample TestData.reference_img
                 (Path "output") (Path "output" // "manual_check")
                 (mkState 0 0 0 0 []) TestData.turned_jpg
    = Ok st'
    /\ saved st' = [] ++ [(output_file, written)]
    /\ arr_eq written (rotated 90 img).
Proof.
  intros img.
  destruct (@saved_rotation_is_candidate TestData.no_cvtColor
              TestData.probe_scorer TestData.no_resample
              TestData.reference_img
              (Path "output") (Path "output" // "manual_check")
              (mkState 0 0 0 0 []) TestData.turned_jpg img img
              90 (900 # 1000)%Q
              [(0, (100 # 1000)%Q); (90, (900 # 1000)%Q); (180, (300 # 1000)%Q);
               (270, (200 # 1000)%Q)]
              false eq_refl eq_refl eq_refl (or_introl eq_refl))
    as (st' & output_file & written & Hp & Hs & _ & _ & _ & _ & Hsame).
  exists st', output_file, written.
  split; [exact Hp|]. split; [exact Hs|]. exact (Hsame eq_refl).
Defined.

(** The quarter turn that is saved for [turned.jpg], pixel by pixel. *)
Example turned_file_is_saved_turned :
  match process_file TestData.no_cvtColor TestData.probe_scorer
          TestData.no_resample TestData.reference_img
          (Path "output") (Path "output" // "manual_check")
          (mkState 0 0 0 0 []) TestData.turned_jpg with
  | Ok st => map (fun w => (fst w, TestData.intensities (snd w))) (saved st)
  | Raise _ => []
  end
  = [(["output"; "turned.jpg"]%string, [[900; 100]; [300; 200]])].
Proof. reflexivity. Qed.

(** A folder of four readable files: one already upright, one turned,
    two sent to manual review; all four are saved. *)
Example batch_of_readable_files :
  match batch_correct_with_template TestData.no_cvtColor TestData.probe_scorer
          TestData.no_resample
          [TestData.upright_png; TestData.tie_png; TestData.turned_jpg;
           TestData.close_jpeg] "output" TestData.reference_png with
  | Ok (Summary st) =>
      Some (corrected_count st, already_correct_count st, failed_count st,
            manual_check_count st, map fst (saved st),
            map (fun w => TestData.intensities (snd w)) (saved st))
  | _ => None
  end
  = Some (1, 3, 0, 2,
          [["output"; "upright.png"]; ["output"; "manual_check"; "tie.png"];
           ["output"; "turned.jpg"];
           ["output"; "manual_check"; "close.jpeg"]]%string,
          [[[900; 200]; [100; 300]]; [[900; 300]; [300; 900]];
           [[900; 100]; [300; 200]]; [[514; 200]; [500; 100]]]).
Proof. reflexivity. Qed.

(** C4, on the failing input.  A folder of three files whose second
    file is corrupt: the load failure is caught inside
    [find_correct_rotation], but the loop then reads [scores[0]] from
    the empty map, and the [KeyError] ends the batch: no summary, no
    failed count of 1, and the third file is never processed. *)
Theorem corrupt_file_aborts_batch :
  batch_correct_with_template TestData.no_cvtColor TestData.probe_scorer
    TestData.no_resample
    [TestData.upright_png; TestData.corrupt_png; TestData.turned_jpg]
    "output" TestData.reference_png
  = Raise (KeyError 0).
Proof. reflexivity. Qed.

(** C8, as the code has it.  When the image cannot be loaded,
    [find_correct_rotation] catches the exception and returns the
    angle 0, the score 0, an empty map and no manual-check flag: the
    angle and the flag of a confident "already upright" decision. *)
Theorem load_failure_result
        (cvtColor : ndarray -> ColorConversionCodes -> result ndarray)
        (calculate_similarity : ndarray -> ndarray -> result Q)
        (image_path : file) (reference_img : ndarray) (e : exn) :
  imread_chinese cvtColor image_path = Raise e ->
  find_correct_rotation cvtColor calculate_similarity image_path reference_img
  = Ok (0, 0%Q, [], false).
Proof.
  intros H. unfold find_correct_rotation. now rewrite H.
Qed.

Lemma load_failure_result_witness :
  find_correct_rotation TestData.no_cvtColor TestData.probe_scorer
                        TestData.corrupt_png TestData.reference_img
  = Ok (0, 0%Q, [], false).
Proof.
  exact (@load_failure_result TestData.no_cvtColor TestData.probe_scorer
           TestData.corrupt_png TestData.reference_img DecodeError eq_refl).
Defined.

(** C8, as stated, fails on its last part: the file that cannot be
    loaded is not written to the output folder, nor anywhere else; the
    batch raises [KeyError] while it reports the scores. *)
Lemma load_failure_not_routed_counterexample :
  find_correct_rotation TestData.no_cvtColor TestData.probe_scorer
                        TestData.corrupt_png TestData.reference_img
  = Ok (0, 0%Q, [], false)
  /\ ~ exists st img,
         batch_correct_with_template TestData.no_cvtColor
           TestData.probe_scorer
           TestData.no_resample [TestData.corrupt_png] "output"
           TestData.reference_png
         = Ok (Summary st)
         /\ In (routed_path "output" false "broken.png", img) (saved st).
Proof.
  split; [reflexivity|].
  intros (st & img & Hrun & _). discriminate Hrun.
Qed.

End BatchFacts.

(* ================================================================== *)
(** * The three-way splitter *)

Module SplitFacts.
Import Split SpecReading.

Lemma third_slice_1 (n : Z) : third_slice n 1 = (0 * (n / 3), 1 * (n / 3)).
Proof. reflexivity. Qed.

Lemma third_slice_2 (n : Z) : third_slice n 2 = (1 * (n / 3), 2 * (n / 3)).
Proof. reflexivity. Qed.

Lemma third_slice_3 (n : Z) : third_slice n 3 = (2 * (n / 3), n).
Proof. reflexivity. Qed.

Ltac thirds :=
  rewrite ?third_slice_1, ?third_slice_2, ?third_slice_3; cbn [fst snd].

Lemma thirds_partition_holds (n : Z) : 0 <= n -> thirds_partition n.
Proof.
  intros Hn. unfold thirds_partition.
  assert (H3 : 0 <= n / 3) by (apply Z.div_pos; lia).
  assert (Hle : 3 * (n / 3) <= n) by (apply Z.mul_div_le; lia).
  split; [thirds; lia|]. split; [thirds; lia|].
  split; [thirds; lia|]. split; [thirds; lia|]. split.
  - intros p [<- | [<- | [<- | []]]]; thirds; lia.
  - intros x Hx.
    destruct (Z_lt_le_dec x (n / 3)) as [H1 | H1];
      [|destruct (Z_lt_le_dec x (2 * (n / 3))) as [H2 | H2]].
    + exists 1. split; [simpl; auto|]. split; [thirds; lia|].
      intros q [<- | [<- | [<- | []]]]; thirds; lia.
    + exists 2. split; [simpl; auto|]. split; [thirds; lia|].
      intros q [<- | [<- | [<- | []]]]; thirds; lia.
    + exists 3. split; [simpl; auto|]. split; [thirds; lia|].
      intros q [<- | [<- | [<- | []]]]; thirds; lia.
Qed.

(** A slice is empty only for the parts 1 and 2 of a side shorter than
    three pixels, and for part 3 of a side without pixels. *)
Lemma third_slice_nonempty (n part_index : Z) :
  0 <= n -> In part_index [1; 2; 3] ->
  (fst (third_slice n part_index) <= snd (third_slice n part_index))
  /\ (fst (third_slice n part_index) < snd (third_slice n part_index)
      <-> (part_index = 3 /\ 1 <= n) \/ 3 <= n).
Proof.
  intros Hn Hp.
  assert (H3 : 0 <= n / 3) by (apply Z.div_pos; lia).
  assert (Hle : 3 * (n / 3) <= n) by (apply Z.mul_div_le; lia).
  assert (Hlt : n < 3 * (n / 3) + 3).
  { pose proof (Z.mod_pos_bound n 3 ltac:(lia)).
    pose proof (Z.div_mod n 3 ltac:(lia)). lia. }
  destruct Hp as [<- | [<- | [<- | []]]]; thirds; lia.
Qed.

(** A crop with a box that is not inverted, followed by the save: the
    crop is written unless it has no pixels. *)
Lemma crop_then_save (image : ndarray) (output_file : path)
      (lft upper rgt lower : Z) :
  lft <= rgt -> upper <= lower ->
  (extracted_image <- Image_crop image (lft, upper, rgt, lower) ;;
   Image_save extracted_image ;;;
   Ok (output_file, extracted_image))
  = if (lft <? rgt) && (upper <? lower)
    then Ok (output_file, geom (pil_crop (lft, upper, rgt, lower)) image)
    else Raise ValueError.
Proof.
  intros H1 H2. unfold Image_crop.
  destruct (Z.ltb_spec rgt lft); [lia|].
  destruct (Z.ltb_spec lower upper); [lia|].
  cbn [orb bind]. unfold Image_save.
  cbn [geom raster pil_crop width height].
  destruct (Z.leb_spec (rgt - lft) 0); destruct (Z.leb_spec (lower - upper) 0);
    destruct (Z.ltb_spec lft rgt); destruct (Z.ltb_spec upper lower);
    cbn [orb andb bind]; try reflexivity; lia.
Qed.

(** What a valid part index makes of an image, in either direction. *)
Lemma extract_part_outcome
      (image_path : file) (output_folder : string) (image : ndarray)
      (part_index : Z) (direction : string) :
  Image_open image_path = Ok image ->
  In part_index [1; 2; 3] ->
  let w := width (raster image) in
  let h := height (raster image) in
  0 <= w -> 0 <= h ->
  let lft := fst (third_slice w part_index) in
  let rgt := snd (third_slice w part_index) in
  let top := fst (third_slice h part_index) in
  let bottom := snd (third_slice h part_index) in
  extract_part_from_image image_path output_folder part_index direction
  = if String.eqb direction "horizontal" then
      if (lft <? rgt) && (0 <? h)
      then Ok (Path output_folder // name image_path,
               geom (pil_crop (lft, 0, rgt, h)) image)
      else Raise ValueError
    else
      if (0 <? w) && (top <? bottom)
      then Ok (Path output_folder // name image_path,
               geom (pil_crop (0, top, w, bottom)) image)
      else Raise ValueError.
Proof.
  intros Hopen Hp w h Hw Hh lft rgt top bottom.
  destruct (third_slice_nonempty Hw Hp) as (Hlr & _).
  destruct (third_slice_nonempty Hh Hp) as (Htb & _).
  fold lft rgt in Hlr. fold top bottom in Htb.
  rewrite <- (@crop_then_save image (Path output_folder // name image_path)
                lft 0 rgt h Hlr Hh).
  rewrite <- (@crop_then_save image (Path output_folder // name image_path)
                0 top w bottom Hw Htb).
  unfold extract_part_from_image. rewrite Hopen. cbn [bind].
  subst lft rgt top bottom w h.
  destruct Hp as [<- | [<- | [<- | []]]];
    destruct (String.eqb direction "horizontal"); reflexivity.
Qed.

(** C9, as the code has it.  For an image of width [w] and height [h]
    and a part index 1, 2 or 3, the horizontal direction cuts the
    full-height slice [left, right) of the columns, where [left, right)
    is [i * (w // 3), (i + 1) * (w // 3)) for [i = part_index - 1 < 2]
    and [2 * (w // 3), w) for part 3.  When the slice has pixels it
    is saved under the name of the input: as high as the image,
    [right - left] wide, its pixel [(y, x)] the pixel [(y, left + x)]
    of the image.  When it has none the save raises [ValueError] and
    nothing is saved; the slice is empty exactly for the parts 1 and 2
    of an image less than three pixels wide (and for an image without
    columns).  The three slices follow one another from 0 to [w] and
    every column lies in exactly one of them.  Any other direction does
    the same along the height. *)
Theorem extract_part_slices
        (image_path : file) (output_folder : string) (image : ndarray)
        (part_index : Z) (direction : string) :
  Image_open image_path = Ok image ->
  In part_index [1; 2; 3] ->
  0 <= width (raster image) ->
  0 <= height (raster image) ->
  let w := width (raster image) in
  let h := height (raster image) in
  let lft := fst (third_slice w part_index) in
  let rgt := snd (third_slice w part_index) in
  let top := fst (third_slice h part_index) in
  let bottom := snd (third_slice h part_index) in
  let columns := geom (pil_crop (lft, 0, rgt, h)) image in
  let rows := geom (pil_crop (0, top, w, bottom)) image in
  extract_part_from_image image_path output_folder part_index "horizontal"
  = (if (lft <? rgt) && (0 <? h)
     then Ok (Path output_folder // name image_path, columns)
     else Raise ValueError)
  /\ (direction <> "horizontal"%string ->
      extract_part_from_image image_path output_folder part_index direction
      = if (0 <? w) && (top <? bottom)
        then Ok (Path output_folder // name image_path, rows)
        else Raise ValueError)
  /\ (chans columns = chans image
      /\ height (raster columns) = h /\ width (raster columns) = rgt - lft
      /\ forall y x, px (raster columns) y x = px (raster image) y (lft + x))
  /\ (chans rows = chans image
      /\ height (raster rows) = bottom - top /\ width (raster rows) = w
      /\ forall y x, px (raster rows) y x = px (raster image) (top + y) x)
  /\ (lft < rgt <-> (part_index = 3 /\ 1 <= w) \/ 3 <= w)
  /\ (top < bottom <-> (part_index = 3 /\ 1 <= h) \/ 3 <= h)
  /\ thirds_partition w
  /\ thirds_partition h.
Proof.
  intros Hopen Hp Hw Hh w h lft rgt top bottom columns rows.
  split; [|split; [|split; [|split; [|split; [|split; [|split]]]]]].
  - exact (@extract_part_outcome image_path output_folder image part_index
             "horizontal" Hopen Hp Hw Hh).
  - intros Hdir. apply String.eqb_neq in Hdir.
    pose proof (@extract_part_outcome image_path output_folder image part_index
                  direction Hopen Hp Hw Hh) as H.
    cbv zeta in H. rewrite Hdir in H. exact H.
  - subst columns. cbn [geom chans raster pil_crop height width px].
    split; [reflexivity|]. split; [lia|]. split; [reflexivity|].
    intros y x. f_equal; lia.
  - subst rows. cbn [geom chans raster pil_crop height width px].
    split; [reflexivity|]. split; [reflexivity|]. split; [lia|].
    intros y x. f_equal; lia.
  - exact (proj2 (third_slice_nonempty Hw Hp)).
  - exact (proj2 (third_slice_nonempty Hh Hp)).
  - now apply thirds_partition_holds.
  - now apply thirds_partition_holds.
Qed.

Lemma extract_part_slices_witness :
  let image := TestData.gray_rows [[1; 2; 3; 4; 5; 6; 7; 8]] in
  let image_path := mkFile "strip.png" (Some image) in
  extract_part_from_image image_path "output_split" 3 "horizontal"
  = Ok (["output_split"; "strip.png"]%string,
        geom (pil_crop (fst (third_slice 8 3), 0, snd (third_slice 8 3), 1))
             image)
  /\ thirds_partition 8.
Proof.
  intros image image_path.
  pose proof (@extract_part_slices image_path "output_split" image 3
                "vertical" eq_refl) as H.
  cbv zeta in H.
  destruct H as (H1 & _ & _ & _ & _ & _ & H2 & _);
    [simpl; auto | cbn; lia | cbn; lia |].
  split; [exact H1 | exact H2].
Defined.

(** C9, as stated, fails for an image less than three pixels wide: for
    a 2 by 2 image and part 1 the slice is [0, 0), the crop has no
    pixels, the save raises [ValueError], and no slice is saved. *)
Lemma narrow_image_part_not_saved_counterexample :
  Image_open TestData.small_png = Ok (TestData.gray_rows [[1; 2]; [3; 4]])
  /\ third_slice 2 1 = (0, 0)
  /\ extract_part_from_image TestData.small_png "output_split" 1 "horizontal"
     = Raise ValueError
  /\ ~ exists saved,
         extract_part_from_image TestData.small_png "output_split" 1
                                 "horizontal"
         = Ok saved.
Proof.
  split; [reflexivity|]. split; [reflexivity|]. split; [reflexivity|].
  intros (saved & H). discriminate H.
Qed.

(** A width of 8 gives the columns 0-1, 2-3 and 4-7. *)
Example split_eight_columns :
  map (fun p =>
         match extract_part_from_image
                 (mkFile "strip.png"
                         (Some (TestData.gray_rows [[1; 2; 3; 4; 5; 6; 7; 8]])))
                 "output_split" p "horizontal" with
         | Ok (_, part) => TestData.intensities part
         | Raise _ => []
         end) [1; 2; 3]
  = [[[1; 2]]; [[3; 4]]; [[5; 6; 7; 8]]].
Proof. reflexivity. Qed.

(** A width of 2 leaves nothing for the parts 1 and 2; part 3 is the
    whole image. *)
Example split_two_columns :
  map (fun p =>
         match extract_part_from_image TestData.small_png
                 "output_split" p "horizontal" with
         | Ok (_, part) => Some (TestData.intensities part)
         | Raise _ => None
         end) [1; 2; 3]
  = [None; None; Some [[1; 2]; [3; 4]]].
Proof. reflexivity. Qed.

Example split_rejects_part_four :
  extract_part_from_image
    (mkFile "strip.png" (Some (TestData.gray_rows [[1; 2; 3]])))
    "output_split" 4 "horizontal"
  = Raise ValueError.
Proof. reflexivity. Qed.

End SplitFacts.

(* ================================================================== *)
(** * The white-edge cropper *)

Module CropFacts.
Import Crop SortFacts RasterFacts.

Lemma flat_map_nil {A B} (f : A -> list B) (l : list A) :
  (forall a, In a l -> f a = []) -> flat_map f l = [].
Proof.
  induction l as [|a l IH]; intros H; simpl.
  - reflexivity.
  - rewrite (H a) by now left. apply IH. intros b Hb. apply H. now right.
Qed.

(** Without a hit inside the array [np.where] returns two empty lists. *)
Lemma np_where_none (cond : Z -> Z -> bool) (h w : Z) :
  (forall y x, 0 <= y < h -> 0 <= x < w -> cond y x = false) ->
  np_where cond h w = ([], []).
Proof.
  intros H. unfold np_where. rewrite flat_map_nil; [reflexivity|].
  intros y Hy. apply in_range in Hy. apply flat_map_nil.
  intros x Hx. apply in_range in Hx. now rewrite H.
Qed.

(** Once the channel guard has let the array through, an image without
    a pixel below the threshold comes back as it is. *)
Lemma crop_white_edges_all_white
      (image img_array : ndarray) (threshold : Q) (padding : Z) :
  (if shape_last image =? 4 then first_three_channels image else Ok image)
  = Ok img_array ->
  (forall y x, 0 <= y < height (raster img_array) ->
               0 <= x < width (raster img_array) ->
               (threshold <= px (gray_of img_array) y x)%Q) ->
  crop_white_edges image threshold padding = Ok image.
Proof.
  intros Hguard Hwhite. unfold crop_white_edges. rewrite Hguard. cbn [bind].
  rewrite np_where_none; [reflexivity|].
  intros y x Hy Hx. apply Qlt_bool_false. now apply Hwhite.
Qed.

(** The guard lets through every array with a channel axis and every
    single-channel array that is not four pixels wide. *)
Lemma channel_guard_passes (image : ndarray) :
  chans image <> None \/ width (raster image) <> 4 ->
  exists img_array,
    (if shape_last image =? 4 then first_three_channels image else Ok image)
    = Ok img_array
    /\ height (raster img_array) = height (raster image)
    /\ width (raster img_array) = width (raster image).
Proof.
  intros H. unfold shape_last, first_three_channels.
  destruct (chans image) as [c|] eqn:Hc.
  - destruct (c =? 4); eexists; split; try reflexivity; split; reflexivity.
  - destruct H as [H | H]; [congruence|].
    apply Z.eqb_neq in H. rewrite H. eexists. repeat split.
Qed.

(** Apart from single-channel images four pixels wide, an image whose
    intensities all reach the threshold is returned unchanged. *)
Lemma all_white_returned_unchanged
      (image : ndarray) (threshold : Q) (padding : Z) :
  chans image <> None \/ width (raster image) <> 4 ->
  (forall img_array,
      (if shape_last image =? 4 then first_three_channels image else Ok image)
      = Ok img_array ->
      forall y x, 0 <= y < height (raster image) ->
                  0 <= x < width (raster image) ->
                  (threshold <= px (gray_of img_array) y x)%Q) ->
  crop_white_edges image threshold padding = Ok image.
Proof.
  intros Hshape Hwhite.
  destruct (channel_guard_passes image Hshape) as (img_array & Hg & Hh & Hw).
  apply (@crop_white_edges_all_white image img_array threshold padding Hg).
  intros y x Hy Hx. apply (Hwhite _ Hg); congruence.
Qed.

(** A single-channel image four pixels wide is taken for RGBA. *)
Lemma channel_guard_fails (image : ndarray) (threshold : Q) (padding : Z) :
  chans image = None -> width (raster image) = 4 ->
  crop_white_edges image threshold padding = Raise IndexError.
Proof.
  intros Hc Hw. unfold crop_white_edges, shape_last, first_three_channels.
  now rewrite Hc, Hw.
Qed.

(** C10, on the failing input.  An all-white single-channel image with
    one row of four pixels: every intensity is 255, above the threshold
    250, but [shape[-1] == 4] takes the width for an alpha channel and
    the slice [img_array[:, :, :3]] raises [IndexError]; the image is
    not returned. *)
Theorem all_white_narrow_image_raises :
  let image := TestData.gray_rows [[255; 255; 255; 255]] in
  (forall y x, 0 <= y < height (raster image) ->
               0 <= x < width (raster image) ->
               Qle 250%Q (px (gray_of image) y x))
  /\ crop_white_edges image 250%Q 10 = Raise IndexError.
Proof.
  intros image. split; [|reflexivity].
  intros y x Hy Hx. cbn in Hy, Hx.
  assert (y = 0) by lia. subst y.
  assert (Hc : x = 0 \/ x = 1 \/ x = 2 \/ x = 3) by lia.
  destruct Hc as [-> | [-> | [-> | ->]]]; vm_compute; discriminate.
Qed.

(** The same white row with five pixels, or with three channels, is
    returned as it is. *)
Example all_white_wide_image_returned :
  let image := TestData.gray_rows [[255; 255; 255; 255; 255]] in
  crop_white_edges image 250%Q 10 = Ok image.
Proof. reflexivity. Qed.

Example all_white_rgba_image_returned :
  let image :=
    mkArr (Some 4) (of_rows [] [[[255; 255; 255; 0]; [250; 251; 252; 0]]]) in
  crop_white_edges image 250%Q 10 = Ok image.
Proof. reflexivity. Qed.

(** A dark pixel in the middle of a white row is kept with its padding. *)
Example dark_pixel_is_cropped :
  match crop_white_edges
          (TestData.gray_rows [[255; 255; 255; 0; 255; 255; 255]]) 250%Q 1 with
  | Ok cropped => TestData.intensities cropped
  | Raise _ => []
  end
  = [[255; 0; 255]].
Proof. reflexivity. Qed.

End CropFacts.

(* ================================================================== *)
(** * Which files a batch picks up *)

Module SelectionFacts.

Lemma substring_all (s : string) : substring 0 (String.length s) s = s.
Proof. induction s as [|c s IH]; simpl; [reflexivity | now rewrite IH]. Qed.

Lemma ends_with_cons (suffix s : string) (c : Ascii.ascii) :
  (String.length suffix <= String.length s)%nat ->
  ends_with suffix (String c s) = ends_with suffix s.
Proof.
  intros H. unfold ends_with. cbn [String.length].
  rewrite Nat.sub_succ_l by exact H. cbn [substring].
  apply Nat.leb_le in H as H'. rewrite H'.
  assert (H2 : (String.length suffix <=? S (String.length s))%nat = true)
    by (apply Nat.leb_le; lia).
  now rewrite H2.
Qed.

Lemma ends_with_length (suffix s : string) :
  ends_with suffix s = true ->
  (String.length suffix <= String.length s)%nat.
Proof.
  unfold ends_with. intros H. apply andb_prop in H. now apply Nat.leb_le.
Qed.

Lemma ends_with_whole (suffix s : string) :
  String.length suffix = String.length s ->
  ends_with suffix s = true -> s = suffix.
Proof.
  unfold ends_with. intros Hlen H. apply andb_prop in H. destruct H as (_ & H).
  rewrite Hlen, Nat.sub_diag, substring_all in H. now apply String.eqb_eq.
Qed.

(** Of two suffixes of one name, the shorter is a suffix of the longer. *)
Lemma ends_with_nested (a b s : string) :
  ends_with a s = true -> ends_with b s = true ->
  (String.length a <= String.length b)%nat ->
  ends_with a b = true.
Proof.
  intros Ha Hb Hab. induction s as [|c s IH].
  - apply ends_with_length in Hb as Hlb. cbn in Hlb.
    assert (E : String.length b = String.length EmptyString) by (cbn; lia).
    now rewrite <- (ends_with_whole b EmptyString E Hb).
  - destruct (Nat.le_gt_cases (String.length b) (String.length s)) as [Hle | Hgt].
    + rewrite ends_with_cons in Ha, Hb by lia. now apply IH.
    + apply ends_with_length in Hb as Hlb. cbn in Hlb.
      assert (E : String.length b = String.length (String c s)) by (cbn; lia).
      now rewrite <- (ends_with_whole b (String c s) E Hb).
Qed.

(** No name ends in two of the three extensions. *)
Lemma extensions_disjoint (s : string) :
  (ends_with ".png" s = true -> ends_with ".jpg" s = false)
  /\ (ends_with ".png" s = true -> ends_with ".jpeg" s = false)
  /\ (ends_with ".jpg" s = true -> ends_with ".jpeg" s = false).
Proof.
  repeat split; intros H1; destruct (ends_with _ s) eqn:H2 in |- *;
    try reflexivity; exfalso.
  - pose proof (ends_with_nested _ _ _ H1 H2) as H. cbn in H.
    specialize (H (le_n _)). discriminate.
  - pose proof (ends_with_nested _ _ _ H1 H2) as H. cbn in H.
    specialize (H (le_S _ _ (le_n _))). discriminate.
  - pose proof (ends_with_nested _ _ _ H1 H2) as H. cbn in H.
    specialize (H (le_S _ _ (le_n _))). discriminate.
Qed.

Lemma in_image_files (folder : list file) (f : file) :
  In f (image_files folder) <-> In f folder /\ is_image_name (name f) = true.
Proof.
  unfold image_files, glob, is_image_name.
  rewrite !in_app_iff, !filter_In, !orb_true_iff. tauto.
Qed.

Lemma no_images_left (folder : list file) :
  image_files folder = [] ->
  forall f, In f folder -> is_image_name (name f) = false.
Proof.
  intros H f Hf. destruct (is_image_name (name f)) eqn:E; [|reflexivity].
  assert (Hin : In f (image_files folder)) by now apply in_image_files.
  rewrite H in Hin. destruct Hin.
Qed.

Lemma NoDup_map_filter {A B} (g : A -> B) (p : A -> bool) (l : list A) :
  NoDup (map g l) -> NoDup (map g (filter p l)).
Proof.
  induction l as [|a l IH]; simpl; intros H; [constructor|].
  inversion H as [|? ? Hn Hl]; subst.
  destruct (p a); simpl; [constructor|]; auto.
  intros Hin. apply Hn. apply in_map_iff in Hin.
  destruct Hin as (x & Hx & Hin). apply filter_In in Hin.
  apply in_map_iff. exists x. tauto.
Qed.

Lemma NoDup_app_disjoint {A} (l1 l2 : list A) :
  NoDup l1 -> NoDup l2 -> (forall x, In x l1 -> ~ In x l2) ->
  NoDup (l1 ++ l2).
Proof.
  induction l1 as [|a l1 IH]; simpl; intros H1 H2 Hd; [assumption|].
  inversion H1; subst. constructor.
  - rewrite in_app_iff. intros [H | H]; [contradiction|].
    apply (Hd a); auto.
  - apply IH; auto.
Qed.

Lemma names_of_glob (ext : string) (folder : list file) (s : string) :
  In s (map name (glob ext folder)) -> ends_with ext s = true.
Proof.
  unfold glob. intros H. apply in_map_iff in H.
  destruct H as (f & <- & Hf). now apply filter_In in Hf.
Qed.

(** In a folder whose entries have distinct names, no name is listed
    twice. *)
Lemma image_files_names_NoDup (folder : list file) :
  NoDup (map name folder) -> NoDup (map name (image_files folder)).
Proof.
  intros H. unfold image_files. rewrite !map_app.
  apply NoDup_app_disjoint; [|apply NoDup_app_disjoint|].
  - now apply NoDup_map_filter.
  - now apply NoDup_map_filter.
  - now apply NoDup_map_filter.
  - intros s H1 H2. apply names_of_glob in H1, H2.
    destruct (extensions_disjoint s) as (_ & _ & Hd). rewrite Hd in H2; congruence.
  - intros s H1 H2. apply names_of_glob in H1.
    destruct (extensions_disjoint s) as (Hd1 & Hd2 & _).
    apply in_app_or in H2. destruct H2 as [H2 | H2];
      apply names_of_glob in H2; [rewrite Hd1 in H2 | rewrite Hd2 in H2];
      congruence.
Qed.

(** X1.  A batch picks up exactly the entries of the folder whose name
    ends in ".png", ".jpg" or ".jpeg" (lower case only), the ".png"
    files first, then the ".jpg" files, then the ".jpeg" files; and in
    a folder whose entries have distinct names no entry is picked up
    twice. *)
Theorem image_files_selection (folder : list file) :
  (forall f, In f (image_files folder) <->
             In f folder /\ (ends_with ".png" (name f) = true
                             \/ ends_with ".jpg" (name f) = true
                             \/ ends_with ".jpeg" (name f) = true))
  /\ image_files folder
     = filter (fun f => ends_with ".png" (name f)) folder
         ++ filter (fun f => ends_with ".jpg" (name f)) folder
         ++ filter (fun f => ends_with ".jpeg" (name f)) folder
  /\ (NoDup (map name folder) -> NoDup (image_files folder)).
Proof.
  split; [|split].
  - intros f. rewrite in_image_files. unfold is_image_name.
    rewrite !orb_true_iff. tauto.
  - reflexivity.
  - intros H. eapply NoDup_map_inv, image_files_names_NoDup, H.
Qed.

Example image_files_of_a_mixed_folder :
  map name (image_files [Fixtures.notes_txt; Fixtures.dot_jpg;
                         Fixtures.upper_PNG; Fixtures.narrow_jpeg;
                         Fixtures.white_png])
  = ["white.png"; "dot.jpg"; "narrow.jpeg"]%string.
Proof. reflexivity. Qed.

End SelectionFacts.

(* ================================================================== *)
(** * More on the decision *)

Module DecisionExtras.
Import Corrector SortFacts DecisionFacts.
Local Open Scope Q_scope.

(** X2.  For an image that loads, whatever the scores: the best angle
    is one of 0, 90, 180, 270, the best score is not negative and
    bounds every score of the map; and either some score is positive,
    and then the best score is the positive score stored for the best
    angle, or no score is positive, and then the function returns the
    angle 0 with the score 0 it started from. *)
Theorem best_score_is_clamped_maximum
        (cvtColor : ndarray -> ColorConversionCodes -> result ndarray)
        (calculate_similarity : ndarray -> ndarray -> result Q)
        (image_path : file) (reference_img test_img : ndarray)
        (best_angle : Z) (best_similarity : Q) (similarity_scores : dict)
        (needs_manual_check : bool) :
  imread_chinese cvtColor image_path = Ok test_img ->
  find_correct_rotation cvtColor calculate_similarity image_path reference_img
  = Ok (best_angle, best_similarity, similarity_scores, needs_manual_check) ->
  In best_angle [0; 90; 180; 270]%Z
  /\ 0 <= best_similarity
  /\ (forall a v, In (a, v) similarity_scores -> v <= best_similarity)
  /\ ((0 < best_similarity
       /\ In (best_angle, best_similarity) similarity_scores)
      \/ (best_angle = 0%Z /\ best_similarity = 0
          /\ forall a v, In (a, v) similarity_scores -> v <= 0)).
Proof.
  intros Hload Hres.
  destruct (find_correct_rotation_inv _ _ _ _ Hload Hres)
    as (_ & Hba & Hbs & Hd & _).
  pose proof (loop_best calculate_similarity reference_img test_img
                        angles 0%Z 0 (nil : dict)) as Hloop.
  cbv zeta in Hloop. rewrite <- Hba, <- Hbs in Hloop.
  destruct Hloop as (Hb0 & Hall & Hcase).
  assert (Hub : forall a v, In (a, v) similarity_scores -> v <= best_similarity).
  { intros a v Hin. rewrite Hd in Hin. apply in_map_iff in Hin.
    destruct Hin as (a' & Heq & Ha'). injection Heq as <- <-. now apply Hall. }
  destruct Hcase as [(Ha & Hs) | (pre & post & Hl & Hs & Hpos & _)].
  - split; [rewrite Ha; simpl; auto|]. split; [assumption|].
    split; [assumption|]. right. split; [assumption|]. split; [assumption|].
    intros a v Hin. rewrite <- Hs. eapply Hub, Hin.
  - assert (Hin : In best_angle angles).
    { rewrite Hl. apply in_or_app. right. now left. }
    split; [exact Hin|]. split; [assumption|]. split; [assumption|].
    left. split; [assumption|]. rewrite Hd, Hs.
    apply in_map_iff. now exists best_angle.
Qed.

Lemma best_score_is_clamped_maximum_witness :
  In 0%Z [0; 90; 180; 270]%Z
  /\ 0 <= 0
  /\ (forall a v,
        In (a, v) [(0, -500 # 1000); (90, -500 # 1000); (180, -500 # 1000);
                   (270, -500 # 1000)]%Z -> v <= 0)
  /\ ((0 < 0 /\ In (0%Z, 0)
                   [(0, -500 # 1000); (90, -500 # 1000); (180, -500 # 1000);
                    (270, -500 # 1000)]%Z)
      \/ (0%Z = 0%Z /\ 0 = 0
          /\ forall a v,
               In (a, v) [(0, -500 # 1000); (90, -500 # 1000);
                          (180, -500 # 1000); (270, -500 # 1000)]%Z ->
               v <= 0)).
Proof.
  exact (@best_score_is_clamped_maximum TestData.no_cvtColor
           TestData.probe_scorer
           TestData.inverted_png TestData.reference_img
           (TestData.gray_rows [[-500; -500]; [-500; -500]]%Z)
           0%Z 0 _ false eq_refl eq_refl).
Defined.

(** The second entry of four sorted scores against the other three,
    when the score at angle [k] is the largest. *)
Lemma margin_of_four (s0 s1 s2 s3 b : Q) (k : Z) :
  s0 <= b -> s1 <= b -> s2 <= b -> s3 <= b ->
  (k = 0%Z /\ s0 == b) \/ (k = 90%Z /\ s1 == b) \/ (k = 180%Z /\ s2 == b)
    \/ (k = 270%Z /\ s3 == b) ->
  let d := [(0, s0); (90, s1); (180, s2); (270, s3)]%Z in
  SIMILARITY_THRESHOLD <= b - second_best d
  <-> forall a v, In (a, v) d -> a <> k -> v + SIMILARITY_THRESHOLD <= b.
Proof.
  intros H0 H1 H2 H3 Hk d. subst d.
  unfold second_best, values, SIMILARITY_THRESHOLD.
  cbn [map snd sorted_desc insert_desc].
  repeat match goal with
  | |- context [Qle_bool ?x ?y] =>
      let E := fresh "E" in
      destruct (Qle_bool x y) eqn:E;
      [apply Qle_bool_iff in E | apply Qle_bool_false in E];
      cbn [insert_desc]
  end; cbn [List.length Nat.ltb Nat.leb nth].
  all: split.
  all: try (intros Hm a v [Hin | [Hin | [Hin | [Hin | []]]]] Hne;
       injection Hin as <- <-;
       destruct Hk as [(-> & Hk) | [(-> & Hk) | [(-> & Hk) | (-> & Hk)]]];
       try (exfalso; apply Hne; reflexivity); lra).
  all: intros Hm;
       pose proof (Hm 0%Z s0 (or_introl eq_refl)) as M0;
       pose proof (Hm 90%Z s1 (or_intror (or_introl eq_refl))) as M1;
       pose proof (Hm 180%Z s2 (or_intror (or_intror (or_introl eq_refl)))) as M2;
       pose proof (Hm 270%Z s3
                      (or_intror (or_intror (or_intror (or_introl eq_refl)))))
         as M3;
       destruct Hk as [(-> & Hk) | [(-> & Hk) | [(-> & Hk) | (-> & Hk)]]];
       [ specialize (M1 ltac:(discriminate)); specialize (M2 ltac:(discriminate));
         specialize (M3 ltac:(discriminate))
       | specialize (M0 ltac:(discriminate)); specialize (M2 ltac:(discriminate));
         specialize (M3 ltac:(discriminate))
       | specialize (M0 ltac:(discriminate)); specialize (M1 ltac:(discriminate));
         specialize (M3 ltac:(discriminate))
       | specialize (M0 ltac:(discriminate)); specialize (M1 ltac:(discriminate));
         specialize (M2 ltac:(discriminate)) ];
       lra.
Qed.

(** X3.  For an image that loads with scores that are not negative, the
    decision is trusted (no manual-check flag) exactly when the best
    score is at least 0.015 above the score of each of the three other
    angles; in particular two angles that tie for the best score always
    send the image to manual review. *)
Theorem manual_check_iff_close_rival
        (cvtColor : ndarray -> ColorConversionCodes -> result ndarray)
        (calculate_similarity : ndarray -> ndarray -> result Q)
        (image_path : file) (reference_img test_img : ndarray)
        (best_angle : Z) (best_similarity : Q) (similarity_scores : dict)
        (needs_manual_check : bool) :
  imread_chinese cvtColor image_path = Ok test_img ->
  (forall a v, In a angles ->
               calculate_similarity reference_img (rotated a test_img) = Ok v ->
               0 <= v) ->
  find_correct_rotation cvtColor calculate_similarity image_path reference_img
  = Ok (best_angle, best_similarity, similarity_scores, needs_manual_check) ->
  (needs_manual_check = false
   <-> forall a v, In (a, v) similarity_scores -> a <> best_angle ->
                   v + SIMILARITY_THRESHOLD <= best_similarity)
  /\ (forall a v, In (a, v) similarity_scores -> a <> best_angle ->
                  v == best_similarity -> needs_manual_check = true).
Proof.
  intros Hload Hpos Hres.
  destruct (find_correct_rotation_inv _ _ _ _ Hload Hres)
    as (_ & _ & _ & _ & Hflag).
  destruct (scores_of_decision _ _ _ _ Hload Hres)
    as (s0 & s1 & s2 & s3 & Hd & _).
  destruct (best_is_first_maximum _ _ _ _ Hload Hpos Hres)
    as (Hub & pre & v & post & Hsplit & Hv & _).
  assert (Hin : In (best_angle, v) similarity_scores).
  { rewrite Hsplit. apply in_or_app. right. now left. }
  assert (Hk : (best_angle = 0%Z /\ s0 == best_similarity)
               \/ (best_angle = 90%Z /\ s1 == best_similarity)
               \/ (best_angle = 180%Z /\ s2 == best_similarity)
               \/ (best_angle = 270%Z /\ s3 == best_similarity)).
  { rewrite Hd in Hin.
    destruct Hin as [Hin | [Hin | [Hin | [Hin | []]]]];
      injection Hin as <- <-; auto. }
  assert (Hiff : needs_manual_check = false
                 <-> forall a v, In (a, v) similarity_scores -> a <> best_angle ->
                                 v + SIMILARITY_THRESHOLD <= best_similarity).
  { rewrite Hflag, Qlt_bool_false, Hd.
    apply margin_of_four; try assumption;
      eapply Hub; rewrite Hd; simpl; eauto. }
  split; [exact Hiff|].
  intros a w Ha Hne Hw.
  destruct needs_manual_check; [reflexivity | exfalso].
  pose proof (proj1 Hiff eq_refl a w Ha Hne) as Hm.
  unfold SIMILARITY_THRESHOLD in Hm. lra.
Qed.

Lemma manual_check_iff_close_rival_witness :
  let d := [(0, 900 # 1000); (90, 300 # 1000); (180, 900 # 1000);
            (270, 300 # 1000)]%Z in
  (true = false
   <-> forall a v, In (a, v) d -> a <> 0%Z ->
                   v + SIMILARITY_THRESHOLD <= 900 # 1000)
  /\ (forall a v, In (a, v) d -> a <> 0%Z -> v == 900 # 1000 -> true = true).
Proof.
  refine (@manual_check_iff_close_rival TestData.no_cvtColor
            TestData.probe_scorer
            TestData.tie_png TestData.reference_img
            (TestData.gray_rows [[900; 300]; [300; 900]]%Z)
            0%Z (900 # 1000) _ true eq_refl _ eq_refl).
  intros a v [<- | [<- | [<- | [<- | []]]]] H; inversion H; discriminate.
Defined.

End DecisionExtras.

(* ================================================================== *)
(** * More on loading and on the corrector's batch *)

Module CorrectorExtras.
Import Corrector RotationFacts DecisionFacts BatchFacts.

Section WithScorer.
Variable cvtColor : ndarray -> ColorConversionCodes -> result ndarray.
Variable calculate_similarity : ndarray -> ndarray -> result Q.
Variable resample : Z -> bool -> image (list Z) -> image (list Z).
Variable reference_img : ndarray.
Variables output_path manual_check_path : path.

Local Abbreviation run :=
  (process_all cvtColor calculate_similarity resample reference_img
               output_path manual_check_path).

(** What a loop that ran to its end has done to the counters. *)
Lemma process_all_counters (image_files : list file) (st st' : state) :
  run st image_files = Ok st' ->
  (forall f, In f image_files -> exists t, imread_chinese cvtColor f = Ok t)
  /\ corrected_count st <= corrected_count st'
  /\ already_correct_count st <= already_correct_count st'
  /\ corrected_count st' + already_correct_count st'
     = corrected_count st + already_correct_count st
       + Z.of_nat (List.length image_files)
  /\ manual_check_count st <= manual_check_count st'
     <= manual_check_count st + Z.of_nat (List.length image_files)
  /\ failed_count st' = failed_count st
  /\ List.length (saved st')
     = (List.length (saved st) + List.length image_files)%nat.
Proof.
  revert st. induction image_files as [|f rest IH]; intros st; cbn [process_all].
  - intros H. inversion H. subst st'. cbn.
    split; [intros f []|]. repeat split; lia.
  - destruct (process_file_cases cvtColor calculate_similarity resample
                reference_img output_path manual_check_path st f)
      as [(st1 & (t & Hload & Hsc) & Hp)
         | [(_ & Hp) | (t & a & e & _ & _ & _ & Hp)]];
      rewrite Hp; cbn [bind]; [|discriminate..].
    intros Hrun. destruct (IH _ Hrun) as (Hall & Hc & Ha & Hsum & Hm & Hf & Hlen).
    pose proof (find_correct_rotation_scored _ _ _ _ Hload Hsc) as Hres.
    cbv zeta in Hres.
    destruct (@process_file_loaded cvtColor calculate_similarity resample
                reference_img output_path manual_check_path
                st f t _ _ _ _ Hload Hres)
      as (img & st2 & _ & Hp' & Hs2 & Hc2 & Ha2 & Hm2 & Hf2).
    assert (st2 = st1) by congruence. subst st2.
    split; [intros g [<- | Hg]; [now exists t | now apply Hall]|].
    rewrite Hlen, Hs2, length_app. cbn [List.length].
    revert Hc2 Ha2 Hm2.
    repeat match goal with |- context [if ?b then _ else _] => destruct b end;
      intros; repeat split; lia.
Qed.

End WithScorer.

(** X5.  Whenever the corrector's batch reaches its summary, every
    picked-up file had loaded, the failed count it reports is 0, the
    corrected and already-correct counts add up to the number of files,
    as does the number of files written, and the manual-check count is
    between 0 and that number. *)
Theorem batch_summary_accounts
        (cvtColor : ndarray -> ColorConversionCodes -> result ndarray)
        (calculate_similarity : ndarray -> ndarray -> result Q)
        (resample : Z -> bool -> image (list Z) -> image (list Z))
        (input_folder : list file) (output_folder : string)
        (reference_image : file) (st : state) :
  batch_correct_with_template cvtColor calculate_similarity resample
                              input_folder output_folder reference_image
  = Ok (Summary st) ->
  let n := Z.of_nat (List.length (image_files input_folder)) in
  (exists reference_img,
      imread_chinese cvtColor reference_image = Ok reference_img)
  /\ 0 < n
  /\ (forall f, In f (image_files input_folder) ->
                exists t, imread_chinese cvtColor f = Ok t)
  /\ failed_count st = 0
  /\ 0 <= corrected_count st /\ 0 <= already_correct_count st
  /\ corrected_count st + already_correct_count st = n
  /\ 0 <= manual_check_count st <= n
  /\ Z.of_nat (List.length (saved st)) = n.
Proof.
  intros H n. subst n. revert H.
  unfold batch_correct_with_template. fold (image_files input_folder).
  destruct (imread_chinese cvtColor reference_image) as [reference_img|e];
    [|discriminate].
  destruct (image_files input_folder) as [|g rest] eqn:Hfiles; [discriminate|].
  destruct (process_all _ _ _ _ _ _ _ (g :: rest)) as [st'|e] eqn:Hrun;
    cbn [bind]; [|discriminate].
  intros H. inversion H. subst st'.
  destruct (process_all_counters _ _ _ _ _ _ _ _ Hrun)
    as (Hall & Hc & Ha & Hsum & Hm & Hf & Hlen).
  cbn [corrected_count already_correct_count manual_check_count failed_count
       saved List.length] in *.
  split; [now exists reference_img|].
  repeat split; try assumption; try lia.
Qed.

Lemma batch_summary_accounts_witness :
  let st :=
    mkState 0 1 0 0
            [(["output"; "upright.png"]%string,
              TestData.gray_rows [[900; 200]; [100; 300]])] in
  batch_correct_with_template TestData.no_cvtColor TestData.probe_scorer
    TestData.no_resample
    [Fixtures.notes_txt; TestData.upright_png] "output" TestData.reference_png
  = Ok (Summary st)
  /\ failed_count st = 0
  /\ corrected_count st + already_correct_count st = 1.
Proof.
  intros st.
  assert (Hrun : batch_correct_with_template TestData.no_cvtColor
                   TestData.probe_scorer TestData.no_resample
                   [Fixtures.notes_txt; TestData.upright_png] "output"
                   TestData.reference_png
                 = Ok (Summary st)) by reflexivity.
  split; [exact Hrun|].
  pose proof (@batch_summary_accounts TestData.no_cvtColor
                TestData.probe_scorer TestData.no_resample
                [Fixtures.notes_txt; TestData.upright_png]
                "output" TestData.reference_png st Hrun) as H.
  cbv zeta in H. split; [apply H | apply H].
Defined.

End CorrectorExtras.

(* ================================================================== *)
(** * The fix of the manual-check folder *)

Module FixFacts.
Import Fix SelectionFacts.

Section Quarter.
Variable resample : Z -> bool -> image (list Z) -> image (list Z).




End Quarter.

Ltac same_pixels :=
  split; [reflexivity|];
  unfold img_eq, cv2_rotate, geom, cv_rotate, cv_flip, cv_transpose,
    pil_transpose;
  cbn [raster chans height width px Z.eqb Z.ltb Z.compare];
  repeat split; intros y x Hy Hx; f_equal; lia.



Lemma filter_filter {A} (p q : A -> bool) (l : list A) :
  filter p (filter q l) = filter (fun x => q x && p x) l.
Proof.
  induction l as [|a l IH]; simpl; [reflexivity|].
  destruct (q a); simpl; [destruct (p a)|]; now rewrite IH.
Qed.

(** Deleting the files of a list one by one leaves the entries whose
    name none of them bears. *)
Lemma fold_unlink (files folder : list file) :
  fold_left (fun F f => unlink f F) files folder
  = filter (fun g => negb (existsb (fun f => String.eqb (name g) (name f)) files))
           folder.
Proof.
  revert folder. induction files as [|f files IH]; intros folder; simpl.
  - induction folder as [|g folder IHf]; simpl; [reflexivity | now rewrite <- IHf].
  - rewrite IH. unfold unlink. rewrite filter_filter.
    apply filter_ext. intros g. now rewrite negb_orb.
Qed.

Section WithResample.
Variable resample : Z -> bool -> image (list Z) -> image (list Z).
Variable output_path : path.

(** The loop moves a readable prefix and stops at the first file that
    cannot be read, or at the end of the list. *)
Lemma rotate_each_prefix (pre rest : list file) (d : disk) :
  (forall f, In f pre -> exists img, content f = Some img) ->
  exists ws,
    Forall2 (is_rotated_copy resample output_path) pre ws
    /\ rotate_each resample output_path (pre ++ rest) d
       = rotate_each resample output_path rest
           (mkDisk (fold_left (fun F f => unlink f F) pre (manual_check d))
                   (output d ++ ws)).
Proof.
  revert d. induction pre as [|f pre IH]; intros d Hall.
  - exists []. split; [constructor|]. cbn. rewrite app_nil_r. now destruct d.
  - destruct (Hall f (or_introl eq_refl)) as (img & Hc).
    destruct (IH (mkDisk (unlink f (manual_check d))
                         (output d ++ [(output_path // name f,
                                        geom (pil_rotate resample 180 true) img)])))
      as (ws & Hws & Hrun).
    { intros g Hg. apply Hall. now right. }
    eexists (_ :: ws). split.
    + constructor; [|exact Hws]. now exists img.
    + cbn [app rotate_each]. unfold Image_open. rewrite Hc.
      rewrite Hrun. cbn [manual_check output fold_left].
      now rewrite <- app_assoc.
Qed.

End WithResample.

(** The early return on an empty listing is what the loop does on it. *)
Lemma rotate_images_180_unfold
      (resample : Z -> bool -> image (list Z) -> image (list Z))
      (folder : list file) (output_folder : string)
      (written_so_far : list (path * ndarray)) :
  rotate_images_180 resample (Some folder) output_folder written_so_far
  = rotate_each resample (Path output_folder) (image_files folder)
                (mkDisk folder written_so_far).
Proof.
  unfold rotate_images_180. now destruct (image_files folder).
Qed.

Lemma name_injective (folder : list file) (a b : file) :
  NoDup (map name folder) -> In a folder -> In b folder ->
  name a = name b -> a = b.
Proof.
  induction folder as [|g folder IH]; simpl; intros Hn Ha Hb Hab; [destruct Ha|].
  inversion Hn as [|? ? Hg Hrest]; subst.
  destruct Ha as [-> | Ha], Hb as [-> | Hb]; auto.
  - exfalso. apply Hg. rewrite Hab. now apply in_map.
  - exfalso. apply Hg. rewrite <- Hab. now apply in_map.
Qed.

Lemma image_files_none (folder : list file) :
  (forall f, In f folder -> is_image_name (name f) = false) ->
  image_files folder = [].
Proof.
  intros H. destruct (image_files folder) as [|f rest] eqn:E; [reflexivity|].
  assert (Hin : In f (image_files folder)) by (rewrite E; now left).
  apply in_image_files in Hin. destruct Hin as (Hin & Hn).
  rewrite (H f Hin) in Hn. discriminate.
Qed.

(** X7.  When every image file of the manual-check folder can be read,
    the fix ends without an exception; it has written, for each image
    file in turn, its rotation by 180 degrees under the same name in
    the output folder; and the folder keeps exactly its entries that
    are not image files, so no image file is left in it. *)
Theorem rotate_images_180_moves_all
        (resample : Z -> bool -> image (list Z) -> image (list Z))
        (folder : list file) (output_folder : string)
        (written_so_far : list (path * ndarray)) :
  (forall f, In f (image_files folder) -> exists img, content f = Some img) ->
  let kept := filter (fun g => negb (is_image_name (name g))) folder in
  exists ws,
    rotate_images_180 resample (Some folder) output_folder written_so_far
    = (mkDisk kept (written_so_far ++ ws), None)
    /\ Forall2 (is_rotated_copy resample (Path output_folder))
               (image_files folder) ws
    /\ image_files kept = [].
Proof.
  intros Hall kept.
  assert (Hkept : image_files kept = []).
  { apply image_files_none. intros f Hf. apply filter_In in Hf.
    destruct Hf as (_ & Hf). now apply negb_true_iff in Hf. }
  rewrite rotate_images_180_unfold.
  destruct (rotate_each_prefix resample (Path output_folder)
              (image_files folder) [] (mkDisk folder written_so_far) Hall)
    as (ws & Hws & Hrun).
  exists ws. rewrite app_nil_r in Hrun. rewrite Hrun.
  cbn [rotate_each manual_check output].
  split; [|split; [exact Hws | exact Hkept]].
  f_equal. f_equal. rewrite fold_unlink. subst kept.
  apply filter_ext_in. intros g Hg. f_equal.
  destruct (is_image_name (name g)) eqn:E.
  - apply existsb_exists. exists g. split; [|apply String.eqb_refl].
    now apply in_image_files.
  - destruct (existsb _ (image_files folder)) eqn:Ex; [|reflexivity].
    apply existsb_exists in Ex. destruct Ex as (f & Hf & Hname).
    apply String.eqb_eq in Hname. apply in_image_files in Hf.
    rewrite Hname in E. destruct Hf as (_ & Hf). congruence.
Qed.

Lemma rotate_images_180_moves_all_witness :
  exists ws,
    rotate_images_180 TestData.no_resample
      (Some [Fixtures.notes_txt; Fixtures.dot_jpg; Fixtures.white_png])
      "output" []
    = (mkDisk [Fixtures.notes_txt] ([] ++ ws), None).
Proof.
  destruct (@rotate_images_180_moves_all TestData.no_resample
              [Fixtures.notes_txt; Fixtures.dot_jpg; Fixtures.white_png]
              "output" []) as (ws & H & _).
  - intros f [<- | [<- | []]]; eexists; reflexivity.
  - exists ws. exact H.
Defined.

(** X8.  Nothing catches an exception in the fix: at the first image
    file that cannot be read it stops with that exception; the image
    files before it have been written rotated and deleted, and every
    other entry of the folder, the unreadable file and the files after
    it included, is still there. *)
Theorem rotate_images_180_stops_at_corrupt
        (resample : Z -> bool -> image (list Z) -> image (list Z))
        (folder : list file) (output_folder : string)
        (written_so_far : list (path * ndarray))
        (pre post : list file) (bad : file) :
  NoDup (map name folder) ->
  image_files folder = pre ++ bad :: post ->
  (forall f, In f pre -> exists img, content f = Some img) ->
  content bad = None ->
  exists ws kept,
    rotate_images_180 resample (Some folder) output_folder written_so_far
    = (mkDisk kept (written_so_far ++ ws), Some DecodeError)
    /\ Forall2 (is_rotated_copy resample (Path output_folder)) pre ws
    /\ (forall g, In g kept <-> In g folder /\ ~ In g pre)
    /\ In bad kept.
Proof.
  intros Hnd Hfiles Hpre Hbad.
  destruct (rotate_each_prefix resample (Path output_folder)
              pre (bad :: post) (mkDisk folder written_so_far) Hpre)
    as (ws & Hws & Hrun).
  exists ws, (fold_left (fun F f => unlink f F) pre folder).
  assert (Hsub : forall f, In f pre -> In f folder).
  { intros f Hf. eapply in_image_files. rewrite Hfiles.
    apply in_or_app. now left. }
  assert (Hkept : forall g,
             In g (fold_left (fun F f => unlink f F) pre folder)
             <-> In g folder /\ ~ In g pre).
  { intros g. rewrite fold_unlink, filter_In, negb_true_iff. split.
    - intros (Hg & Hex). split; [exact Hg|]. intros Hin.
      assert (Ht : existsb (fun f => String.eqb (name g) (name f)) pre = true).
      { apply existsb_exists. exists g. split; [exact Hin | apply String.eqb_refl]. }
      congruence.
    - intros (Hg & Hnot). split; [exact Hg|].
      destruct (existsb _ pre) eqn:Ex; [exfalso | reflexivity].
      apply existsb_exists in Ex. destruct Ex as (f & Hf & Hname).
      apply String.eqb_eq in Hname.
      rewrite (name_injective folder g f Hnd Hg (Hsub f Hf) Hname) in Hnot.
      contradiction. }
  split; [|split; [exact Hws | split; [exact Hkept|]]].
  - rewrite rotate_images_180_unfold, Hfiles, Hrun. cbn [rotate_each].
    unfold Image_open. now rewrite Hbad.
  - apply Hkept.
    assert (Hin : In bad (image_files folder)).
    { rewrite Hfiles. apply in_or_app. right. now left. }
    split; [now apply in_image_files in Hin|].
    intros Hp. apply in_split in Hp. destruct Hp as (l1 & l2 & Hp).
    pose proof (image_files_names_NoDup folder Hnd) as Hn.
    rewrite Hfiles, Hp, map_app in Hn. cbn [map] in Hn.
    rewrite map_app in Hn. cbn [map] in Hn.
    rewrite <- app_assoc in Hn. cbn [app] in Hn.
    apply NoDup_remove_2 in Hn. apply Hn.
    rewrite in_app_iff. right. rewrite in_app_iff. right. now left.
Qed.

Lemma rotate_images_180_stops_at_corrupt_witness :
  exists ws kept,
    rotate_images_180 TestData.no_resample
      (Some [Fixtures.notes_txt; TestData.corrupt_png; Fixtures.dot_jpg;
             Fixtures.white_png])
      "output" []
    = (mkDisk kept ([] ++ ws), Some DecodeError)
    /\ In TestData.corrupt_png kept.
Proof.
  destruct (@rotate_images_180_stops_at_corrupt TestData.no_resample
              [Fixtures.notes_txt; TestData.corrupt_png; Fixtures.dot_jpg;
               Fixtures.white_png]
              "output" [] [] [Fixtures.white_png; Fixtures.dot_jpg]
              TestData.corrupt_png)
    as (ws & kept & H & _ & _ & Hin).
  - cbn. repeat constructor; cbn; intuition discriminate.
  - reflexivity.
  - intros f [].
  - reflexivity.
  - exists ws, kept. split; assumption.
Defined.

(** With a readable file in front, that one is moved before the stop. *)
Example fix_moves_the_files_before_the_corrupt_one :
  let '(d, e) :=
    rotate_images_180 TestData.no_resample
      (Some [Fixtures.white_png; TestData.corrupt_png; Fixtures.dot_jpg])
      "output" [] in
  (map name (manual_check d), map fst (output d), e)
  = (["broken.png"; "dot.jpg"], [["output"; "white.png"]], Some DecodeError)%string.
Proof. reflexivity. Qed.

End FixFacts.

(* ================================================================== *)
(** * More on the white-edge cropper *)

Module CropExtras.
Import Crop SortFacts RasterFacts CropFacts.

Lemma fold_min_le (d : Z) (l : list Z) (y : Z) :
  In y l -> fold_right Z.min d l <= y.
Proof.
  induction l as [|a l IH]; simpl; intros H; [destruct H|].
  destruct H as [-> | H]; [lia | specialize (IH H); lia].
Qed.

Lemma fold_max_ge (d : Z) (l : list Z) (y : Z) :
  In y l -> y <= fold_right Z.max d l.
Proof.
  induction l as [|a l IH]; simpl; intros H; [destruct H|].
  destruct H as [-> | H]; [lia | specialize (IH H); lia].
Qed.

(** Every pixel of the array on which the test holds is reported. *)
Lemma np_where_hit (cond : Z -> Z -> bool) (h w y x : Z) :
  0 <= y < h -> 0 <= x < w -> cond y x = true ->
  In y (fst (np_where cond h w)) /\ In x (snd (np_where cond h w)).
Proof.
  intros Hy Hx Hc. unfold np_where. cbn [fst snd].
  assert (Hin : In (y, x)
                   (flat_map (fun y => flat_map
                      (fun x => if cond y x then [(y, x)] else []) (range w))
                      (range h))).
  { apply in_flat_map. exists y. split; [now apply in_range|].
    apply in_flat_map. exists x. split; [now apply in_range|].
    rewrite Hc. now left. }
  split.
  - apply in_map_iff. now exists (y, x).
  - apply in_map_iff. now exists (y, x).
Qed.

Lemma guard_dims (image img_array : ndarray) :
  (if shape_last image =? 4 then first_three_channels image else Ok image)
  = Ok img_array ->
  height (raster img_array) = height (raster image)
  /\ width (raster img_array) = width (raster image).
Proof.
  unfold first_three_channels.
  destruct (shape_last image =? 4).
  - destruct (chans image); [|discriminate].
    intros H. inversion H. now subst.
  - intros H. inversion H. now subst.
Qed.

(** With a dark pixel and a padding that is not negative the box of
    the crop lies inside the image, is not empty and holds every dark
    pixel. *)
Lemma crop_box_holds_dark_pixels
      (image img_array : ndarray) (threshold : Q) (padding : Z) :
  (if shape_last image =? 4 then first_three_channels image else Ok image)
  = Ok img_array ->
  0 <= padding ->
  let h := height (raster image) in
  let w := width (raster image) in
  let dark y x := Qlt_bool (px (gray_of img_array) y x) threshold = true in
  (exists y x, 0 <= y < h /\ 0 <= x < w /\ dark y x) ->
  exists top bottom lft rgt cropped,
    crop_white_edges image threshold padding = Ok cropped
    /\ cropped = geom (pil_crop (lft, top, rgt, bottom)) image
    /\ 0 <= top < bottom /\ bottom <= h
    /\ 0 <= lft < rgt /\ rgt <= w
    /\ forall y x, 0 <= y < h -> 0 <= x < w -> dark y x ->
         top <= y < bottom /\ lft <= x < rgt
         /\ px (raster cropped) (y - top) (x - lft) = px (raster image) y x.
Proof.
  intros Hguard Hpad h w dark (y0 & x0 & Hy0 & Hx0 & Hd0).
  destruct (guard_dims _ Hguard) as (Hh & Hw).
  unfold crop_white_edges. rewrite Hguard. cbn [bind]. rewrite Hh, Hw.
  fold h w.
  set (cond := fun y x => Qlt_bool (px (gray_of img_array) y x) threshold).
  set (hits := np_where cond h w).
  assert (Hhit : forall y x, 0 <= y < h -> 0 <= x < w -> dark y x ->
                             In y (fst hits) /\ In x (snd hits)).
  { intros y x Hy Hx Hd. now apply np_where_hit. }
  destruct (Hhit y0 x0 Hy0 Hx0 Hd0) as (Hr0 & Hc0).
  assert (Hne : (List.length (fst hits) =? 0)%nat
                || (List.length (snd hits) =? 0)%nat = false).
  { destruct (fst hits); [destruct Hr0|]. destruct (snd hits); [destruct Hc0|].
    reflexivity. }
  rewrite Hne.
  assert (Hbox : forall y x, 0 <= y < h -> 0 <= x < w -> dark y x ->
            Z.max 0 (list_min (fst hits) - padding) <= y
              < Z.min h (list_max (fst hits) + padding + 1)
            /\ Z.max 0 (list_min (snd hits) - padding) <= x
              < Z.min w (list_max (snd hits) + padding + 1)).
  { intros y x Hy Hx Hd. destruct (Hhit y x Hy Hx Hd) as (Hr & Hc).
    pose proof (fold_min_le (hd 0 (fst hits)) _ _ Hr).
    pose proof (fold_max_ge (hd 0 (fst hits)) _ _ Hr).
    pose proof (fold_min_le (hd 0 (snd hits)) _ _ Hc).
    pose proof (fold_max_ge (hd 0 (snd hits)) _ _ Hc).
    unfold list_min, list_max. lia. }
  pose proof (Hbox y0 x0 Hy0 Hx0 Hd0) as Hb0.
  rewrite Image_crop_valid by lia.
  do 5 eexists. split; [reflexivity|]. split; [reflexivity|].
  split; [lia|]. split; [lia|]. split; [lia|]. split; [lia|].
  intros y x Hy Hx Hd. pose proof (Hbox y x Hy Hx Hd) as Hb.
  split; [lia|]. split; [lia|].
  cbn. f_equal; lia.
Qed.

(** X9.  When the array passes the channel guard, the padding is not
    negative and some pixel is darker than the threshold, the cropper
    returns the crop of the image with a box that lies inside the image
    and is not empty, and no pixel darker than the threshold is lost:
    each lies inside the box and is found again, unchanged, in the
    cropped image. *)
Theorem crop_keeps_content
        (image img_array : ndarray) (threshold : Q) (padding : Z) :
  (if shape_last image =? 4 then first_three_channels image else Ok image)
  = Ok img_array ->
  0 <= padding ->
  let h := height (raster image) in
  let w := width (raster image) in
  let dark y x := Qlt_bool (px (gray_of img_array) y x) threshold = true in
  (exists y x, 0 <= y < h /\ 0 <= x < w /\ dark y x) ->
  exists top bottom lft rgt cropped,
    crop_white_edges image threshold padding = Ok cropped
    /\ cropped = geom (pil_crop (lft, top, rgt, bottom)) image
    /\ 0 <= top < bottom /\ bottom <= h
    /\ 0 <= lft < rgt /\ rgt <= w
    /\ forall y x, 0 <= y < h -> 0 <= x < w -> dark y x ->
         top <= y < bottom /\ lft <= x < rgt
         /\ px (raster cropped) (y - top) (x - lft) = px (raster image) y x.
Proof.
  exact (@crop_box_holds_dark_pixels image img_array threshold padding).
Qed.

Lemma crop_keeps_content_witness :
  exists top bottom lft rgt cropped,
    crop_white_edges (TestData.gray_rows [[255; 255; 255; 0; 255; 255; 255]])
                     250%Q 1 = Ok cropped
    /\ cropped = geom (pil_crop (lft, top, rgt, bottom))
                      (TestData.gray_rows [[255; 255; 255; 0; 255; 255; 255]])
    /\ 0 <= top < bottom /\ bottom <= 1
    /\ 0 <= lft < rgt /\ rgt <= 7.
Proof.
  destruct (@crop_keeps_content
              (TestData.gray_rows [[255; 255; 255; 0; 255; 255; 255]])
              (TestData.gray_rows [[255; 255; 255; 0; 255; 255; 255]])
              250%Q 1 eq_refl)
    as (top & bottom & lft & rgt & cropped & H1 & H2 & H3 & H4 & H5 & H6 & _).
  - lia.
  - exists 0, 3. cbn. repeat split; lia.
  - exists top, bottom, lft, rgt, cropped. cbn in H4, H6. repeat split; assumption || lia.
Defined.

(** What [np.where] reports are pixels of the array on which the test
    holds. *)
Lemma np_where_sound (cond : Z -> Z -> bool) (h w : Z) :
  (forall y, In y (fst (np_where cond h w)) ->
             exists x, 0 <= y < h /\ 0 <= x < w /\ cond y x = true)
  /\ (forall x, In x (snd (np_where cond h w)) ->
                exists y, 0 <= y < h /\ 0 <= x < w /\ cond y x = true).
Proof.
  unfold np_where. cbn [fst snd].
  assert (H : forall y x,
             In (y, x)
                (flat_map (fun y => flat_map
                   (fun x => if cond y x then [(y, x)] else []) (range w))
                   (range h)) ->
             0 <= y < h /\ 0 <= x < w /\ cond y x = true).
  { intros y x Hin. apply in_flat_map in Hin. destruct Hin as (y' & Hy' & Hin).
    apply in_flat_map in Hin. destruct Hin as (x' & Hx' & Hin).
    apply in_range in Hy', Hx'.
    destruct (cond y' x') eqn:E; [|destruct Hin].
    destruct Hin as [Hin | []]. injection Hin as <- <-. auto. }
  split.
  - intros y Hy. apply in_map_iff in Hy. destruct Hy as ([y' x] & <- & Hin).
    exists x. now apply H.
  - intros x Hx. apply in_map_iff in Hx. destruct Hx as ([y x'] & <- & Hin).
    exists y. now apply H.
Qed.

(** With a padding that is not negative, an array that passes the
    channel guard is cropped without an exception, and the crop has
    pixels exactly when the image has. *)
Lemma crop_white_edges_returns
      (image img_array : ndarray) (threshold : Q) (padding : Z) :
  (if shape_last image =? 4 then first_three_channels image else Ok image)
  = Ok img_array ->
  0 <= padding ->
  exists cropped,
    crop_white_edges image threshold padding = Ok cropped
    /\ is_ok (Image_save cropped)
       = (0 <? width (raster image)) && (0 <? height (raster image)).
Proof.
  intros Hguard Hpad.
  assert (Hsave : forall a : ndarray,
             is_ok (Image_save a)
             = (0 <? width (raster a)) && (0 <? height (raster a))).
  { intros a. unfold Image_save.
    destruct (Z.leb_spec (width (raster a)) 0);
      destruct (Z.leb_spec (height (raster a)) 0);
      destruct (Z.ltb_spec 0 (width (raster a)));
      destruct (Z.ltb_spec 0 (height (raster a)));
      cbn [orb andb is_ok]; try reflexivity; lia. }
  destruct (guard_dims _ Hguard) as (Hh & Hw).
  set (cond := fun y x => Qlt_bool (px (gray_of img_array) y x) threshold).
  set (h := height (raster image)). set (w := width (raster image)).
  destruct (fst (np_where cond h w)) as [|y rows] eqn:Hrows.
  - exists image. split; [|apply Hsave].
    unfold crop_white_edges. rewrite Hguard. cbn [bind]. rewrite Hh, Hw.
    fold cond h w. now rewrite Hrows.
  - destruct (proj1 (np_where_sound cond h w) y) as (x & Hy & Hx & Hd).
    { rewrite Hrows. now left. }
    destruct (@crop_box_holds_dark_pixels image img_array threshold padding
                Hguard Hpad)
      as (top & bottom & lft & rgt & cropped & Hc & -> & Ht & Hb & Hl & Hr & _).
    { exists y, x. repeat split; try apply Hy; try apply Hx. exact Hd. }
    exists (geom (pil_crop (lft, top, rgt, bottom)) image).
    split; [exact Hc|]. rewrite Hsave.
    cbn [geom raster pil_crop width height]. fold h w.
    destruct (Z.ltb_spec 0 (rgt - lft)); destruct (Z.ltb_spec 0 (bottom - top));
      destruct (Z.ltb_spec 0 w); destruct (Z.ltb_spec 0 h);
      cbn [andb]; try reflexivity; lia.
Qed.

(** The guard lets an array through or raises [IndexError]: it raises
    on single-channel arrays four pixels wide and on nothing else. *)
Lemma channel_guard_cases (image : ndarray) :
  (exists img_array,
      (if shape_last image =? 4 then first_three_channels image else Ok image)
      = Ok img_array
      /\ match chans image with
         | None => negb (width (raster image) =? 4)
         | Some _ => true
         end = true)
  \/ ((if shape_last image =? 4 then first_three_channels image else Ok image)
      = Raise IndexError
      /\ match chans image with
         | None => negb (width (raster image) =? 4)
         | Some _ => true
         end = false).
Proof.
  unfold shape_last, first_three_channels.
  destruct (chans image) as [c|].
  - left. destruct (c =? 4); eexists; split; reflexivity.
  - destruct (width (raster image) =? 4).
    + right. split; reflexivity.
    + left. eexists. split; reflexivity.
Qed.

End CropExtras.

(* ================================================================== *)
(** * The batches that isolate failures *)

Module TriedFacts.

Section WithWork.
Variable work : file -> result (path * ndarray).

(** A loop with a [try] around each file counts every file once, as a
    success or as a failure, and writes what succeeded. *)
Lemma fold_tried (files : list file) (t : tally) :
  let t' := fold_left (tried work) files t in
  success_count t'
  = success_count t
    + Z.of_nat (List.length (filter (fun f => is_ok (work f)) files))
  /\ failed_count t'
     = failed_count t
       + Z.of_nat (List.length (filter (fun f => negb (is_ok (work f))) files))
  /\ written t' = written t ++ results work files.
Proof.
  revert t. induction files as [|f files IH]; intros t; cbn [fold_left].
  - cbn. rewrite app_nil_r. repeat split; lia.
  - specialize (IH (tried work t f)). cbv zeta in IH |- *.
    destruct IH as (Hs & Hf & Hw). rewrite Hs, Hf, Hw.
    unfold tried, results. cbn [filter flat_map].
    destruct (work f) as [w|e]; cbn [is_ok negb success_count failed_count
                                     written List.length app];
      rewrite <- ?app_assoc; repeat split; lia.
Qed.

Lemma filter_partition_length {A} (p : A -> bool) (l : list A) :
  (List.length (filter p l) + List.length (filter (fun a => negb (p a)) l)
   = List.length l)%nat.
Proof.
  induction l as [|a l IH]; simpl; [reflexivity|].
  destruct (p a); simpl; lia.
Qed.

End WithWork.

End TriedFacts.

Module CropBatchFacts.
Import CropBatch TriedFacts CropExtras.

(** With a padding that is not negative, a file is cropped and saved
    exactly when it is croppable. *)
Lemma crop_file_is_ok (output_path : path) (threshold : Q) (padding : Z)
      (f : file) :
  0 <= padding ->
  is_ok (crop_file output_path threshold padding f) = croppable f.
Proof.
  intros Hpad. unfold crop_file, imread_chinese, Image_open, croppable.
  destruct (content f) as [img|]; cbn [bind]; [|reflexivity].
  destruct (channel_guard_cases img) as [(img_array & Hg & Hb) | (Hg & Hb)];
    rewrite Hb.
  - destruct (crop_white_edges_returns img threshold Hg Hpad)
      as (cropped & Hc & Hs).
    rewrite Hc. cbn [bind andb]. rewrite <- Hs.
    now destruct (Image_save cropped).
  - unfold Crop.crop_white_edges. rewrite Hg. reflexivity.
Qed.

Lemma crop_file_path (output_path : path) (threshold : Q) (padding : Z)
      (f : file) (w : path * ndarray) :
  crop_file output_path threshold padding f = Ok w ->
  fst w = output_path // name f.
Proof.
  unfold crop_file, imread_chinese.
  destruct (Image_open f) as [img|]; cbn [bind]; [|discriminate].
  destruct (Crop.crop_white_edges img threshold padding) as [cropped|];
    cbn [bind]; [|discriminate].
  destruct (Image_save cropped); cbn [bind]; [|discriminate].
  intros H. inversion H. reflexivity.
Qed.

(** X10.  With a padding that is not negative the cropper's batch never
    stops on a file: with no image file in the folder it returns at
    once; otherwise it reports as successes exactly the files that
    decode to an image with pixels that is not a single-channel image
    four pixels wide, as failures all the others, the two counts adding
    up to the number of files, and it writes one file, under the same
    name, for each success and none for a failure. *)
Theorem batch_crop_counts
        (input_folder : list file) (output_folder : string)
        (threshold : Q) (padding : Z) :
  0 <= padding ->
  let files := image_files input_folder in
  (files = [] ->
   batch_crop_white_edges input_folder output_folder threshold padding
   = NoImages)
  /\ (files <> [] ->
      exists t,
        batch_crop_white_edges input_folder output_folder threshold padding
        = Report t
        /\ success_count t
           = Z.of_nat (List.length (filter croppable files))
        /\ failed_count t
           = Z.of_nat (List.length (filter (fun f => negb (croppable f)) files))
        /\ success_count t + failed_count t = Z.of_nat (List.length files)
        /\ map fst (written t)
           = map (fun f => Path output_folder // name f)
                 (filter croppable files)).
Proof.
  intros Hpad files. unfold batch_crop_white_edges. fold files. split.
  - now intros ->.
  - intros Hne. destruct files as [|f0 rest] eqn:E; [congruence|].
    rewrite <- E. clear E Hne f0 rest.
    eexists. split; [reflexivity|].
    pose proof (fold_tried (crop_file (Path output_folder) threshold padding)
                           files (mkTally 0 0 [])) as H.
    cbv zeta in H. destruct H as (Hs & Hf & Hw).
    rewrite Hs, Hf, Hw. cbn [success_count failed_count written app].
    rewrite (filter_ext _ croppable
               (fun f => crop_file_is_ok (Path output_folder) threshold f Hpad)).
    rewrite (filter_ext (fun f => negb (is_ok (crop_file _ _ _ f)))
                        (fun f => negb (croppable f)))
      by (intros f; f_equal; now apply crop_file_is_ok).
    split; [reflexivity|]. split; [reflexivity|]. split.
    + pose proof (filter_partition_length croppable files). lia.
    + clear Hs Hf Hw. induction files as [|f files IH]; [reflexivity|].
      unfold results in *. cbn [flat_map filter].
      rewrite <- (crop_file_is_ok (Path output_folder) threshold f Hpad).
      destruct (crop_file (Path output_folder) threshold padding f) as [w|e] eqn:E;
        cbn [is_ok app map].
      * rewrite IH. f_equal. now apply crop_file_path in E.
      * exact IH.
Qed.

Lemma batch_crop_counts_witness :
  exists t,
    batch_crop_white_edges
      [Fixtures.notes_txt; Fixtures.dot_jpg; Fixtures.narrow_jpeg;
       TestData.corrupt_png; Fixtures.white_png]
      "output_cropped" 250%Q 10
    = Report t
    /\ success_count t = 2 /\ failed_count t = 2.
Proof.
  destruct (proj2 (@batch_crop_counts
              [Fixtures.notes_txt; Fixtures.dot_jpg; Fixtures.narrow_jpeg;
               TestData.corrupt_png; Fixtures.white_png]
              "output_cropped" 250%Q 10 ltac:(lia)))
    as (t & H & Hs & Hf & _).
  - discriminate.
  - exists t. repeat split; assumption.
Defined.

(** A negative padding can invert the box or leave it without pixels;
    the crop or the save then raises and the file counts as failed. *)
Example negative_padding_fails :
  batch_crop_white_edges [Fixtures.dot_jpg] "output_cropped" 250%Q (-1)
  = Report (mkTally 0 1 []).
Proof. reflexivity. Qed.

End CropBatchFacts.

(* ================================================================== *)
(** * More on the three-way splitter *)

Module SplitExtras.
Import Split SplitBatch TriedFacts RasterFacts.

Lemma range_shift (s n : nat) :
  map Z.of_nat (seq s n) = map (fun x => x + Z.of_nat s) (map Z.of_nat (seq 0 n)).
Proof.
  revert s. induction n as [|n IH]; intros s; [reflexivity|].
  cbn [seq map]. rewrite (IH (S s)), (IH 1%nat), !map_map.
  f_equal. apply map_ext. intros k. lia.
Qed.

Lemma range_split (a b : Z) :
  0 <= a -> 0 <= b ->
  range (a + b) = range a ++ map (fun x => x + a) (range b).
Proof.
  intros Ha Hb. unfold range.
  rewrite Z2Nat.inj_add by assumption.
  rewrite seq_app, map_app. f_equal.
  cbn [Nat.add]. rewrite range_shift. rewrite Z2Nat.id by assumption.
  reflexivity.
Qed.

(** A list built over [0, n1 + n2 + n3) is the three lists built over
    the consecutive pieces. *)
Lemma three_slices {A} (f : Z -> A) (n1 n2 n3 : Z) :
  0 <= n1 -> 0 <= n2 -> 0 <= n3 ->
  map f (range (n1 + n2 + n3))
  = map f (range n1) ++ map (fun x => f (x + n1)) (range n2)
      ++ map (fun x => f (x + (n1 + n2))) (range n3).
Proof.
  intros H1 H2 H3.
  rewrite (@range_split (n1 + n2) n3) by lia.
  rewrite (@range_split n1 n2) by lia.
  rewrite !map_app, !map_map, <- app_assoc. reflexivity.
Qed.

(** X11.  For an image that has pixels, at least three of them along
    the direction of the split, all three parts are saved, and put side
    by side the three parts of a horizontal split give the image back:
    all three have the height of the image and every row of the image
    is the row of part 1 followed by the rows of parts 2 and 3.  In
    every other direction the rows of the image are the rows of part 1,
    then of part 2, then of part 3, each part as wide as the image. *)
Theorem parts_reassemble
        (image_path : file) (output_folder : string) (image : ndarray)
        (direction : string) :
  Image_open image_path = Ok image ->
  0 < width (raster image) ->
  0 < height (raster image) ->
  3 <= (if String.eqb direction "horizontal"
        then width (raster image) else height (raster image)) ->
  exists part1 part2 part3,
    extract_part_from_image image_path output_folder 1 direction
    = Ok (Path output_folder // name image_path, part1)
    /\ extract_part_from_image image_path output_folder 2 direction
       = Ok (Path output_folder // name image_path, part2)
    /\ extract_part_from_image image_path output_folder 3 direction
       = Ok (Path output_folder // name image_path, part3)
    /\ if String.eqb direction "horizontal" then
         height (raster part1) = height (raster image)
         /\ height (raster part2) = height (raster image)
         /\ height (raster part3) = height (raster image)
         /\ forall y,
              row (raster image) y
              = row (raster part1) y ++ row (raster part2) y
                  ++ row (raster part3) y
       else
         width (raster part1) = width (raster image)
         /\ width (raster part2) = width (raster image)
         /\ width (raster part3) = width (raster image)
         /\ to_rows (raster image)
            = to_rows (raster part1) ++ to_rows (raster part2)
                ++ to_rows (raster part3).
Proof.
  intros Hopen Hw Hh Hside.
  assert (Hw0 : 0 <= width (raster image)) by lia.
  assert (Hh0 : 0 <= height (raster image)) by lia.
  pose proof (@SplitFacts.extract_part_outcome image_path output_folder image
                1 direction Hopen (or_introl eq_refl) Hw0 Hh0) as E1.
  pose proof (@SplitFacts.extract_part_outcome image_path output_folder image
                2 direction Hopen (or_intror (or_introl eq_refl)) Hw0 Hh0)
    as E2.
  pose proof (@SplitFacts.extract_part_outcome image_path output_folder image
                3 direction Hopen (or_intror (or_intror (or_introl eq_refl)))
                Hw0 Hh0) as E3.
  cbv zeta in E1, E2, E3.
  rewrite !SplitFacts.third_slice_1 in E1.
  rewrite !SplitFacts.third_slice_2 in E2.
  rewrite !SplitFacts.third_slice_3 in E3.
  cbn [fst snd] in E1, E2, E3.
  set (w := width (raster image)) in *. set (h := height (raster image)) in *.
  assert (Hw3 : 0 <= w / 3) by (apply Z.div_pos; lia).
  assert (Hw3' : 3 * (w / 3) <= w) by (apply Z.mul_div_le; lia).
  assert (Hh3 : 0 <= h / 3) by (apply Z.div_pos; lia).
  assert (Hh3' : 3 * (h / 3) <= h) by (apply Z.mul_div_le; lia).
  assert (Hw1 : String.eqb direction "horizontal" = true -> 1 <= w / 3).
  { intros E. rewrite E in Hside. apply Z.div_le_lower_bound; lia. }
  assert (Hh1 : String.eqb direction "horizontal" = false -> 1 <= h / 3).
  { intros E. rewrite E in Hside. apply Z.div_le_lower_bound; lia. }
  assert (Hpos : forall a b c d : Z, a < b -> c < d -> (a <? b) && (c <? d) = true).
  { intros a b c d H1 H2. apply andb_true_intro.
    split; apply Z.ltb_lt; assumption. }
  destruct (String.eqb direction "horizontal");
    [specialize (Hw1 eq_refl); clear Hh1 | specialize (Hh1 eq_refl); clear Hw1];
    rewrite Hpos in E1, E2, E3 by lia;
    do 3 eexists; (split; [exact E1|]); (split; [exact E2|]);
      (split; [exact E3|]);
    cbn [geom raster pil_crop height width].
  - split; [lia|]. split; [lia|]. split; [lia|].
    intros y. unfold row. cbn [width px]. fold w.
    replace w with (w / 3 + w / 3 + (w - 2 * (w / 3))) at 1 by lia.
    rewrite three_slices by lia.
    f_equal; [|f_equal].
    + replace (1 * (w / 3) - 0 * (w / 3)) with (w / 3) by lia.
      apply map_ext. intros x. f_equal; lia.
    + replace (2 * (w / 3) - 1 * (w / 3)) with (w / 3) by lia.
      apply map_ext. intros x. f_equal; lia.
    + apply map_ext. intros x. f_equal; lia.
  - split; [lia|]. split; [lia|]. split; [lia|].
    unfold to_rows. cbn [width height px]. fold w h.
    replace h with (h / 3 + h / 3 + (h - 2 * (h / 3))) at 1 by lia.
    rewrite three_slices by lia.
    replace (w - 0) with w by lia.
    f_equal; [|f_equal].
    + replace (1 * (h / 3) - 0 * (h / 3)) with (h / 3) by lia.
      apply map_ext. intros y. apply map_ext. intros x. f_equal; lia.
    + replace (2 * (h / 3) - 1 * (h / 3)) with (h / 3) by lia.
      apply map_ext. intros y. apply map_ext. intros x. f_equal; lia.
    + apply map_ext. intros y. apply map_ext. intros x. f_equal; lia.
Qed.

Lemma parts_reassemble_witness :
  exists part1 part2 part3,
    extract_part_from_image Fixtures.strip_png "output_split" 1 "horizontal"
    = Ok (["output_split"; "strip.png"]%string, part1)
    /\ extract_part_from_image Fixtures.strip_png "output_split" 2 "horizontal"
       = Ok (["output_split"; "strip.png"]%string, part2)
    /\ extract_part_from_image Fixtures.strip_png "output_split" 3 "horizontal"
       = Ok (["output_split"; "strip.png"]%string, part3)
    /\ forall y,
         row (raster (Fixtures.gray [[1; 2; 3; 4; 5; 6; 7; 8];
                                     [9; 10; 11; 12; 13; 14; 15; 16]])) y
         = row (raster part1) y ++ row (raster part2) y ++ row (raster part3) y.
Proof.
  destruct (@parts_reassemble Fixtures.strip_png "output_split"
              (Fixtures.gray [[1; 2; 3; 4; 5; 6; 7; 8];
                              [9; 10; 11; 12; 13; 14; 15; 16]])
              "horizontal" eq_refl)
    as (p1 & p2 & p3 & H1 & H2 & H3 & H).
  - cbn. lia.
  - cbn. lia.
  - cbn. lia.
  - exists p1, p2, p3. cbn [String.eqb Ascii.eqb Bool.eqb] in H.
    split; [exact H1|]. split; [exact H2|]. split; [exact H3|]. apply H.
Defined.

(** A file is split and saved exactly when it is splittable. *)
Lemma extract_part_is_ok
      (image_path : file) (output_folder : string)
      (part_index : Z) (direction : string) :
  In part_index [1; 2; 3] ->
  (forall image, content image_path = Some image ->
                 0 <= width (raster image) /\ 0 <= height (raster image)) ->
  is_ok (extract_part_from_image image_path output_folder part_index direction)
  = splittable part_index direction image_path.
Proof.
  intros Hp Hsize. unfold splittable.
  destruct (content image_path) as [image|] eqn:Hc.
  - destruct (Hsize image eq_refl) as (Hw & Hh).
    rewrite (@SplitFacts.extract_part_outcome image_path output_folder image
               part_index direction); [| unfold Image_open; now rewrite Hc
                                       | exact Hp | exact Hw | exact Hh].
    destruct (SplitFacts.third_slice_nonempty Hw Hp) as (_ & Hcols).
    destruct (SplitFacts.third_slice_nonempty Hh Hp) as (_ & Hrows).
    set (w := width (raster image)) in *. set (h := height (raster image)) in *.
    destruct (String.eqb direction "horizontal");
      repeat match goal with
      | |- context [?a <? ?b] => destruct (Z.ltb_spec a b)
      | |- context [?a <=? ?b] => destruct (Z.leb_spec a b)
      | |- context [?a =? ?b] => destruct (Z.eqb_spec a b)
      end; cbn [andb orb is_ok]; try reflexivity; exfalso; lia.
  - unfold extract_part_from_image, Image_open. now rewrite Hc.
Qed.

Lemma extract_part_path
      (image_path : file) (output_folder : string)
      (part_index : Z) (direction : string) (w : path * ndarray) :
  extract_part_from_image image_path output_folder part_index direction = Ok w ->
  fst w = Path output_folder // name image_path.
Proof.
  unfold extract_part_from_image.
  destruct (Image_open image_path) as [image|]; cbn [bind]; [|discriminate].
  destruct (negb _); [discriminate|].
  match goal with
  | |- bind ?c _ = _ -> _ => destruct c as [extracted|]
  end; cbn [bind]; [|discriminate].
  destruct (Image_save extracted); cbn [bind]; [|discriminate].
  intros H. inversion H. reflexivity.
Qed.

(** X12.  The splitter's batch looks the direction and the part index
    up in its table of names before it lists the folder: a direction
    other than "horizontal" and "vertical" raises [KeyError] on the
    direction and a part index other than 1, 2, 3 raises [KeyError] on
    the index, whatever the folder holds.  With both valid it never
    stops on a file: it returns at once on a folder without image
    files, and otherwise reports as successes the files that decode to
    an image with pixels whose selected part has pixels too (the side
    along the split is at least three pixels long, or the part is the
    third), and all the others as failures, writing one file under the
    same name for each success. *)
Theorem batch_extract_part_outcome
        (input_folder : list file) (output_folder : string)
        (part_index : Z) (direction : string) :
  let files := image_files input_folder in
  let run :=
    batch_extract_part input_folder output_folder part_index direction in
  let ok := splittable part_index direction in
  (forall f image, In f files -> content f = Some image ->
                   0 <= width (raster image) /\ 0 <= height (raster image)) ->
  (direction <> "horizontal"%string -> direction <> "vertical"%string ->
   run = KeyErrorRaised (StrKey direction))
  /\ (direction = "horizontal"%string \/ direction = "vertical"%string ->
      ~ In part_index [1; 2; 3] ->
      run = KeyErrorRaised (IntKey part_index))
  /\ (direction = "horizontal"%string \/ direction = "vertical"%string ->
      In part_index [1; 2; 3] ->
      (files = [] -> run = Ran NoImages)
      /\ (files <> [] ->
          exists t,
            run = Ran (Report t)
            /\ success_count t = Z.of_nat (List.length (filter ok files))
            /\ failed_count t
               = Z.of_nat (List.length (filter (fun f => negb (ok f)) files))
            /\ success_count t + failed_count t = Z.of_nat (List.length files)
            /\ map fst (written t)
               = map (fun f => Path output_folder // name f)
                     (filter ok files))).
Proof.
  intros files run ok Hsize. subst run. unfold batch_extract_part. fold files.
  assert (Hnames : forall names,
            In names [[(1, "左边"); (2, "中间"); (3, "右边")];
                      [(1, "上边"); (2, "中间"); (3, "下边")]]%string ->
            (In part_index [1; 2; 3] ->
             exists v, lookup_int names part_index = Some v)
            /\ (~ In part_index [1; 2; 3] ->
                lookup_int names part_index = None)).
  { intros names [<- | [<- | []]]; cbn [lookup_int]; split.
    - intros [<- | [<- | [<- | []]]]; eexists; reflexivity.
    - intros Hn.
      destruct (1 =? part_index) eqn:E1;
        [apply Z.eqb_eq in E1; exfalso; apply Hn; simpl; auto|].
      destruct (2 =? part_index) eqn:E2;
        [apply Z.eqb_eq in E2; exfalso; apply Hn; simpl; auto|].
      destruct (3 =? part_index) eqn:E3;
        [apply Z.eqb_eq in E3; exfalso; apply Hn; simpl; auto|].
      reflexivity.
    - intros [<- | [<- | [<- | []]]]; eexists; reflexivity.
    - intros Hn.
      destruct (1 =? part_index) eqn:E1;
        [apply Z.eqb_eq in E1; exfalso; apply Hn; simpl; auto|].
      destruct (2 =? part_index) eqn:E2;
        [apply Z.eqb_eq in E2; exfalso; apply Hn; simpl; auto|].
      destruct (3 =? part_index) eqn:E3;
        [apply Z.eqb_eq in E3; exfalso; apply Hn; simpl; auto|].
      reflexivity. }
  assert (Hdir : (direction <> "horizontal"%string ->
                  direction <> "vertical"%string ->
                  lookup_str position_name direction = None)
                 /\ (direction = "horizontal"%string
                     \/ direction = "vertical"%string ->
                     exists names,
                       lookup_str position_name direction = Some names
                       /\ In names
                            [[(1, "左边"); (2, "中间"); (3, "右边")];
                             [(1, "上边"); (2, "中间"); (3, "下边")]]%string)).
  { unfold position_name. cbn [lookup_str]. split.
    - intros H1 H2.
      destruct (String.eqb_spec "horizontal" direction) as [E|_]; [congruence|].
      destruct (String.eqb_spec "vertical" direction) as [E|_]; [congruence|].
      reflexivity.
    - intros [-> | ->]; eexists; (split; [reflexivity|]); simpl; auto. }
  destruct Hdir as (Hbad & Hgood).
  split; [|split].
  - intros H1 H2. now rewrite (Hbad H1 H2).
  - intros Hd Hp. destruct (Hgood Hd) as (names & -> & Hin).
    now rewrite (proj2 (Hnames names Hin) Hp).
  - intros Hd Hp. destruct (Hgood Hd) as (names & -> & Hin).
    destruct (proj1 (Hnames names Hin) Hp) as (v & ->).
    split; [now intros ->|].
    intros Hne. destruct files as [|f0 rest] eqn:E; [congruence|].
    rewrite <- E in *. clear E Hne f0 rest.
    assert (Hok : forall f, In f files ->
              is_ok (extract_part_from_image f output_folder part_index
                                             direction)
              = ok f).
    { intros f Hf. apply extract_part_is_ok; [exact Hp|].
      intros image Hc. exact (Hsize f image Hf Hc). }
    clearbody files. clear Hsize.
    eexists. split; [reflexivity|].
    pose proof (fold_tried
                  (fun img_file =>
                     extract_part_from_image img_file output_folder
                                             part_index direction)
                  files (mkTally 0 0 [])) as H.
    cbv zeta in H. destruct H as (Hs & Hf & Hw).
    rewrite Hs, Hf, Hw. cbn [success_count failed_count written app].
    rewrite (filter_ext_in _ ok _ Hok).
    rewrite (filter_ext_in (fun f => negb (is_ok _))
                           (fun f => negb (ok f)))
      by (intros f Hfin; f_equal; now apply Hok).
    split; [reflexivity|]. split; [reflexivity|]. split.
    + pose proof (filter_partition_length ok files). lia.
    + clear Hs Hf Hw. induction files as [|f files IH]; [reflexivity|].
      unfold results in *. cbn [flat_map filter].
      rewrite <- (Hok f (or_introl eq_refl)).
      destruct (extract_part_from_image f output_folder part_index direction)
        as [w|e] eqn:E; cbn [is_ok app map].
      * rewrite IH by (intros g Hg; apply Hok; now right).
        f_equal. now apply extract_part_path in E.
      * apply IH. intros g Hg. apply Hok. now right.
Qed.

Lemma batch_extract_part_outcome_witness :
  batch_extract_part [Fixtures.strip_png] "output_split" 2 "diagonal"
  = KeyErrorRaised (StrKey "diagonal")
  /\ batch_extract_part [Fixtures.strip_png] "output_split" 0 "vertical"
     = KeyErrorRaised (IntKey 0)
  /\ exists t,
       batch_extract_part
         [Fixtures.strip_png; TestData.corrupt_png; TestData.small_png;
          Fixtures.notes_txt]
         "output_split" 2 "horizontal"
       = Ran (Report t)
       /\ success_count t = 1 /\ failed_count t = 2.
Proof.
  assert (Hsize : forall folder,
            Forall (fun f => forall image, content f = Some image ->
                      0 <= width (raster image) /\ 0 <= height (raster image))
                   folder ->
            forall f image, In f (image_files folder) ->
              content f = Some image ->
              0 <= width (raster image) /\ 0 <= height (raster image)).
  { intros folder Hall f image Hin. apply SelectionFacts.in_image_files in Hin.
    rewrite Forall_forall in Hall. apply Hall, Hin. }
  assert (Hstrip : forall image, content Fixtures.strip_png = Some image ->
                     0 <= width (raster image) /\ 0 <= height (raster image)).
  { intros image H. inversion H. cbn. lia. }
  assert (Hsmall : forall image, content TestData.small_png = Some image ->
                     0 <= width (raster image) /\ 0 <= height (raster image)).
  { intros image H. inversion H. cbn. lia. }
  assert (Hnone : forall f, content f = None ->
                     forall image, content f = Some image ->
                     0 <= width (raster image) /\ 0 <= height (raster image)).
  { intros f H0 image H. congruence. }
  split; [|split].
  - apply (proj1 (@batch_extract_part_outcome [Fixtures.strip_png]
                    "output_split" 2 "diagonal"
                    (Hsize _ (Forall_cons _ Hstrip (Forall_nil _)))));
      discriminate.
  - apply (proj1 (proj2 (@batch_extract_part_outcome [Fixtures.strip_png]
                           "output_split" 0 "vertical"
                           (Hsize _ (Forall_cons _ Hstrip (Forall_nil _)))))).
    + now right.
    + cbn. intuition discriminate.
  - destruct (proj2 (proj2 (proj2 (@batch_extract_part_outcome
                [Fixtures.strip_png; TestData.corrupt_png; TestData.small_png;
                 Fixtures.notes_txt]
                "output_split" 2 "horizontal"
                (Hsize _ (Forall_cons _ Hstrip
                           (Forall_cons _ (Hnone TestData.corrupt_png eq_refl)
                              (Forall_cons _ Hsmall
                                 (Forall_cons _ (Hnone Fixtures.notes_txt eq_refl)
                                    (Forall_nil _))))))))
                (or_introl eq_refl) (or_intror (or_introl eq_refl))))
      as (t & H & Hs & Hf & _).
    + discriminate.
    + exists t. repeat split; assumption.
Defined.

End SplitExtras.

(* ================================================================== *)
(** * When the corrector's batch raises, and how rotations compose *)

Module MoreCorrectorFacts.
Import Corrector RotationFacts DecisionFacts BatchFacts FixFacts.

Section WithScorer.
Variable cvtColor : ndarray -> ColorConversionCodes -> result ndarray.
Variable calculate_similarity : ndarray -> ndarray -> result Q.
Variable resample : Z -> bool -> image (list Z) -> image (list Z).
Variable reference_img : ndarray.
Variables output_path manual_check_path : path.

(** The loop raises [KeyError 0] on a file that did not load, or the
    exception of the scorer on a candidate of a file that did. *)
Lemma process_all_raise (image_files : list file) (st : state) (e : exn) :
  process_all cvtColor calculate_similarity resample reference_img
              output_path manual_check_path st image_files = Raise e ->
  exists f,
    In f image_files
    /\ (((exists e', imread_chinese cvtColor f = Raise e') /\ e = KeyError 0)
        \/ (exists t a,
              imread_chinese cvtColor f = Ok t /\ In a angles
              /\ calculate_similarity reference_img (rotated a t) = Raise e)).
Proof.
  revert st. induction image_files as [|f rest IH]; intros st;
    cbn [process_all]; [discriminate|].
  destruct (process_file_cases cvtColor calculate_similarity resample
              reference_img output_path manual_check_path st f)
    as [(st1 & _ & Hp)
       | [((e' & Hload) & Hp) | (t & a & e' & Hload & Ha & He' & Hp)]];
    rewrite Hp; cbn [bind].
  - intros Hrun. destruct (IH _ Hrun) as (g & Hg & Hcase).
    exists g. split; [now right | exact Hcase].
  - intros H. inversion H. exists f. split; [now left|].
    left. split; [now exists e' | reflexivity].
  - intros H. inversion H. subst e'. exists f. split; [now left|].
    right. now exists t, a.
Qed.

End WithScorer.

(** X13.  The corrector's batch raises an exception exactly when the
    reference image loads and some picked-up file either does not load
    or has a rotation candidate on which the scorer raises.  The
    exception is the [KeyError] for the key 0 of the empty score map
    when it comes from a file that did not load, and the exception of
    the scorer itself otherwise.  A reference image that does not load
    makes the batch return before it looks at any file. *)
Theorem batch_raises_iff
        (cvtColor : ndarray -> ColorConversionCodes -> result ndarray)
        (calculate_similarity : ndarray -> ndarray -> result Q)
        (resample : Z -> bool -> image (list Z) -> image (list Z))
        (input_folder : list file) (output_folder : string)
        (reference_image : file) :
  let run := batch_correct_with_template cvtColor calculate_similarity resample
               input_folder output_folder reference_image in
  ((exists e, run = Raise e)
   <-> exists reference_img f,
         imread_chinese cvtColor reference_image = Ok reference_img
         /\ In f (image_files input_folder)
         /\ ((exists e', imread_chinese cvtColor f = Raise e')
             \/ (exists t a e',
                   imread_chinese cvtColor f = Ok t /\ In a angles
                   /\ calculate_similarity reference_img (rotated a t)
                      = Raise e')))
  /\ (forall e, run = Raise e ->
        exists reference_img f,
          imread_chinese cvtColor reference_image = Ok reference_img
          /\ In f (image_files input_folder)
          /\ (((exists e', imread_chinese cvtColor f = Raise e')
               /\ e = KeyError 0)
              \/ (exists t a,
                    imread_chinese cvtColor f = Ok t /\ In a angles
                    /\ calculate_similarity reference_img (rotated a t)
                       = Raise e)))
  /\ ((exists e, imread_chinese cvtColor reference_image = Raise e) ->
      run = Ok ReferenceUnreadable).
Proof.
  intros run. subst run.
  assert (Hraise : forall e,
            batch_correct_with_template cvtColor calculate_similarity resample
              input_folder output_folder reference_image = Raise e ->
            exists reference_img f,
              imread_chinese cvtColor reference_image = Ok reference_img
              /\ In f (image_files input_folder)
              /\ (((exists e', imread_chinese cvtColor f = Raise e')
                   /\ e = KeyError 0)
                  \/ (exists t a,
                        imread_chinese cvtColor f = Ok t /\ In a angles
                        /\ calculate_similarity reference_img (rotated a t)
                           = Raise e))).
  { intros e. unfold batch_correct_with_template.
    fold (image_files input_folder).
    destruct (imread_chinese cvtColor reference_image) as [reference_img|e0];
      [|discriminate].
    destruct (image_files input_folder) as [|g rest]; [discriminate|].
    destruct (process_all _ _ _ _ _ _ _ (g :: rest)) as [st'|e1] eqn:Hrun;
      cbn [bind]; [discriminate|].
    intros H. inversion H. subst e1.
    destruct (process_all_raise _ _ _ _ _ _ _ _ Hrun) as (f & Hf & Hcase).
    exists reference_img, f. split; [reflexivity|]. split; assumption. }
  split; [split|split].
  - intros (e & H). destruct (Hraise e H) as (r & f & Hr & Hf & Hcase).
    exists r, f. split; [exact Hr|]. split; [exact Hf|].
    destruct Hcase as [(He' & _) | (t & a & Ht & Ha & He)];
      [now left | right; now exists t, a, e].
  - intros (reference_img & f & Href & Hin & Hbad).
    unfold batch_correct_with_template. rewrite Href.
    fold (image_files input_folder).
    destruct (image_files input_folder) as [|g rest] eqn:Hfiles;
      [destruct Hin|].
    destruct (@process_all_not_scored cvtColor calculate_similarity resample
                reference_img (Path output_folder)
                (Path output_folder // "manual_check")
                (g :: rest) (mkState 0 0 0 0 [])) as (e & He).
    + exists f. split; [exact Hin | exact Hbad].
    + exists e. now rewrite He.
  - exact Hraise.
  - intros (e & He). unfold batch_correct_with_template. now rewrite He.
Qed.

(** A scorer that refuses a candidate of the second file: the batch
    ends with the scorer's exception, after the first file is saved. *)
Example scorer_exception_ends_batch :
  batch_correct_with_template TestData.no_cvtColor TestData.picky_scorer
    TestData.no_resample
    [TestData.upright_png; TestData.refused_png; TestData.tie_png]
    "output" TestData.reference_png
  = Raise CvError.
Proof. reflexivity. Qed.

Ltac sum_of_angles :=
  match goal with
  | |- context [(?a + ?b) mod 360] =>
      let v := eval vm_compute in ((a + b) mod 360) in
      change ((a + b) mod 360) with v
  end.

(** X14.  The rotation candidates compose like angles: the candidate
    for the angle [a] of the candidate for the angle [b] is the
    candidate for [(a + b) mod 360]; so two angles that add up to 360
    give the image back. *)
Theorem rotated_compose (img : ndarray) (a b : Z) :
  In a angles -> In b angles ->
  arr_eq (rotated a (rotated b img)) (rotated ((a + b) mod 360) img).
Proof.
  intros Ha Hb.
  destruct Ha as [<- | [<- | [<- | [<- | []]]]];
    destruct Hb as [<- | [<- | [<- | [<- | []]]]];
    sum_of_angles; unfold rotated; cbn [Z.eqb Pos.eqb];
    same_pixels.
Qed.

Lemma rotated_compose_witness :
  let img := TestData.gray_rows [[1; 2; 3]; [4; 5; 6]] in
  arr_eq (rotated 270 (rotated 90 img)) (rotated 0 img).
Proof.
  intros img.
  exact (@rotated_compose img 270 90
           (or_intror (or_intror (or_intror (or_introl eq_refl))))
           (or_intror (or_introl eq_refl))).
Defined.

End MoreCorrectorFacts.

(* ================================================================== *)
(** * Cropping what is already cropped *)

Module CropTwice.
Import Crop SortFacts RasterFacts CropFacts CropExtras.

Lemma fold_min_in (d : Z) (l : list Z) :
  fold_right Z.min d l = d \/ In (fold_right Z.min d l) l.
Proof.
  induction l as [|a l IH]; simpl; [now left|].
  destruct (Z.min_spec a (fold_right Z.min d l)) as [(_ & ->) | (_ & ->)].
  - right. now left.
  - destruct IH as [IH | IH]; [now left | right; now right].
Qed.

Lemma fold_max_in (d : Z) (l : list Z) :
  fold_right Z.max d l = d \/ In (fold_right Z.max d l) l.
Proof.
  induction l as [|a l IH]; simpl; [now left|].
  destruct (Z.max_spec a (fold_right Z.max d l)) as [(_ & ->) | (_ & ->)].
  - destruct IH as [IH | IH]; [now left | right; now right].
  - right. now left.
Qed.

(** The smallest and the largest element of a list that is not empty
    are elements of it. *)
Lemma list_min_in (l : list Z) : l <> [] -> In (list_min l) l.
Proof.
  destruct l as [|a l]; [congruence|]. intros _. unfold list_min. cbn [hd].
  destruct (fold_min_in a (a :: l)) as [H | H]; [|exact H].
  rewrite H. now left.
Qed.

Lemma list_max_in (l : list Z) : l <> [] -> In (list_max l) l.
Proof.
  destruct l as [|a l]; [congruence|]. intros _. unfold list_max. cbn [hd].
  destruct (fold_max_in a (a :: l)) as [H | H]; [|exact H].
  rewrite H. now left.
Qed.

(** The two ways the cropper returns. *)
Lemma crop_white_edges_cases
      (image cropped : ndarray) (threshold : Q) (padding : Z) :
  crop_white_edges image threshold padding = Ok cropped ->
  exists img_array,
    (if shape_last image =? 4 then first_three_channels image else Ok image)
    = Ok img_array
    /\ let hits :=
         np_where (fun y x => Qlt_bool (px (gray_of img_array) y x) threshold)
                  (height (raster image)) (width (raster image)) in
       ((fst hits = [] \/ snd hits = []) /\ cropped = image)
       \/ (fst hits <> [] /\ snd hits <> []
           /\ cropped
              = geom (pil_crop
                        (Z.max 0 (list_min (snd hits) - padding),
                         Z.max 0 (list_min (fst hits) - padding),
                         Z.min (width (raster image))
                               (list_max (snd hits) + padding + 1),
                         Z.min (height (raster image))
                               (list_max (fst hits) + padding + 1)))
                     image).
Proof.
  unfold crop_white_edges.
  destruct (if shape_last image =? 4 then first_three_channels image
            else Ok image) as [img_array|e] eqn:Hguard; cbn [bind];
    [|discriminate].
  destruct (guard_dims _ Hguard) as (Hh & Hw). rewrite Hh, Hw.
  intros H. exists img_array. split; [reflexivity|]. cbv zeta.
  destruct (np_where _ (height (raster image)) (width (raster image)))
    as [rows cols].
  cbn [fst snd] in *.
  destruct rows as [|y rows].
  - left. cbn in H. inversion H. auto.
  - destruct cols as [|x cols].
    + left. cbn in H. inversion H. auto.
    + right. cbn [List.length Nat.eqb orb] in H.
      apply Image_crop_ok in H. destruct H as (-> & _).
      repeat split; discriminate.
Qed.

(** The gray plane of a crop is the crop of the gray plane. *)
Lemma gray_of_crop (image img_array crop_array : ndarray)
      (box : Z * Z * Z * Z) :
  (if shape_last image =? 4 then first_three_channels image else Ok image)
  = Ok img_array ->
  (if shape_last (geom (pil_crop box) image) =? 4
   then first_three_channels (geom (pil_crop box) image)
   else Ok (geom (pil_crop box) image))
  = Ok crop_array ->
  let '(lft, top, _, _) := box in
  forall y x,
    px (gray_of crop_array) y x = px (gray_of img_array) (y + top) (x + lft).
Proof.
  destruct box as [[[lft top] rgt] bottom]. destruct image as [ch r].
  unfold shape_last, first_three_channels, gray_of, geom.
  cbn [chans raster].
  destruct ch as [c|].
  - destruct (c =? 4); intros H1 H2; inversion H1; inversion H2; subst;
      cbn [chans raster]; reflexivity.
  - destruct (width r =? 4); [discriminate|].
    destruct (width (pil_crop (lft, top, rgt, bottom) r) =? 4);
      [discriminate|].
    intros H1 H2; inversion H1; inversion H2; subst.
    cbn [chans raster]. reflexivity.
Qed.

(** X15.  Cropping is idempotent: when the cropper, with a padding
    that is not negative, returns an image and is run again on it with
    the same threshold and padding without raising, it returns that
    image again. *)
Theorem crop_twice
        (image cropped again : ndarray) (threshold : Q) (padding : Z) :
  0 <= padding ->
  crop_white_edges image threshold padding = Ok cropped ->
  crop_white_edges cropped threshold padding = Ok again ->
  arr_eq again cropped.
Proof.
  intros Hpad H1 H2.
  destruct (crop_white_edges_cases _ _ _ H1) as (arr & Hg & Hcase).
  cbv zeta in Hcase.
  destruct Hcase as [(_ & ->) | (Hrows & Hcols & Hc)].
  { assert (E : again = image) by congruence. subst.
    split; [reflexivity | apply img_eq_refl]. }
  set (cond := fun y x => Qlt_bool (px (gray_of arr) y x) threshold) in *.
  set (h := height (raster image)) in *.
  set (w := width (raster image)) in *.
  set (rows := fst (np_where cond h w)) in *.
  set (cols := snd (np_where cond h w)) in *.
  set (top := Z.max 0 (list_min rows - padding)) in *.
  set (lft := Z.max 0 (list_min cols - padding)) in *.
  set (bottom := Z.min h (list_max rows + padding + 1)) in *.
  set (rgt := Z.min w (list_max cols + padding + 1)) in *.
  destruct (np_where_sound cond h w) as (Srow & Scol).
  assert (Hin_box : forall y x, 0 <= y < h -> 0 <= x < w -> cond y x = true ->
                      top <= y < bottom /\ lft <= x < rgt).
  { intros y x Hy Hx Hd.
    destruct (np_where_hit cond Hy Hx Hd) as (Hr & Hk).
    fold rows in Hr. fold cols in Hk.
    pose proof (fold_min_le (hd 0 rows) _ _ Hr).
    pose proof (fold_max_ge (hd 0 rows) _ _ Hr).
    pose proof (fold_min_le (hd 0 cols) _ _ Hk).
    pose proof (fold_max_ge (hd 0 cols) _ _ Hk).
    unfold top, bottom, lft, rgt, list_min, list_max. lia. }
  (* extremal hits of the first crop *)
  destruct (Srow _ (list_min_in Hrows)) as (xa & Hya & Hxa & Ha).
  destruct (Srow _ (list_max_in Hrows)) as (xb & Hyb & Hxb & Hb).
  destruct (Scol _ (list_min_in Hcols)) as (yc & Hyc & Hxc & Hcc).
  destruct (Scol _ (list_max_in Hcols)) as (yd & Hyd & Hxd & Hd).
  pose proof (Hin_box _ _ Hya Hxa Ha) as Ba.
  pose proof (Hin_box _ _ Hyb Hxb Hb) as Bb.
  pose proof (Hin_box _ _ Hyc Hxc Hcc) as Bc.
  pose proof (Hin_box _ _ Hyd Hxd Hd) as Bd.
  (* the second crop *)
  destruct (crop_white_edges_cases _ _ _ H2) as (arr2 & Hg2 & Hcase2).
  cbv zeta in Hcase2.
  destruct Hcase2 as [(_ & ->) | (Hrows2 & Hcols2 & Hc2)].
  { split; [reflexivity | apply img_eq_refl]. }
  rewrite Hc in Hg2.
  pose proof (gray_of_crop image (lft, top, rgt, bottom) Hg Hg2) as Hgray.
  cbv beta iota in Hgray.
  assert (Hh2 : height (raster cropped) = bottom - top) by (rewrite Hc; reflexivity).
  assert (Hw2 : width (raster cropped) = rgt - lft) by (rewrite Hc; reflexivity).
  rewrite Hh2, Hw2 in Hc2, Hrows2, Hcols2.
  set (cond2 := fun y x => Qlt_bool (px (gray_of arr2) y x) threshold) in *.
  set (rows2 := fst (np_where cond2 (bottom - top) (rgt - lft))) in *.
  set (cols2 := snd (np_where cond2 (bottom - top) (rgt - lft))) in *.
  assert (Hmove : forall y x, 0 <= y < h -> 0 <= x < w -> cond y x = true ->
                    In (y - top) rows2 /\ In (x - lft) cols2).
  { intros y x Hy Hx Hdk. pose proof (Hin_box _ _ Hy Hx Hdk) as B.
    apply np_where_hit; try lia.
    unfold cond2. rewrite Hgray.
    replace (y - top + top) with y by lia.
    replace (x - lft + lft) with x by lia. exact Hdk. }
  destruct (np_where_sound cond2 (bottom - top) (rgt - lft)) as (Srow2 & Scol2).
  assert (Hr2 : forall y, In y rows2 -> 0 <= y < bottom - top).
  { intros y Hy. destruct (Srow2 y Hy) as (x & ? & _). assumption. }
  assert (Hk2 : forall x, In x cols2 -> 0 <= x < rgt - lft).
  { intros x Hx. destruct (Scol2 x Hx) as (y & _ & ? & _). assumption. }
  pose proof (fold_min_le (hd 0 rows2) _ _ (proj1 (Hmove _ _ Hya Hxa Ha))) as M1.
  pose proof (fold_max_ge (hd 0 rows2) _ _ (proj1 (Hmove _ _ Hyb Hxb Hb))) as M2.
  pose proof (fold_min_le (hd 0 cols2) _ _ (proj2 (Hmove _ _ Hyc Hxc Hcc))) as M3.
  pose proof (fold_max_ge (hd 0 cols2) _ _ (proj2 (Hmove _ _ Hyd Hxd Hd))) as M4.
  fold (list_min rows2) in M1. fold (list_max rows2) in M2.
  fold (list_min cols2) in M3. fold (list_max cols2) in M4.
  assert (E1 : Z.max 0 (list_min rows2 - padding) = 0)
    by (unfold top in *; lia).
  assert (E2 : Z.min (bottom - top) (list_max rows2 + padding + 1) = bottom - top)
    by (unfold bottom in *; lia).
  assert (E3 : Z.max 0 (list_min cols2 - padding) = 0)
    by (unfold lft in *; lia).
  assert (E4 : Z.min (rgt - lft) (list_max cols2 + padding + 1) = rgt - lft)
    by (unfold rgt in *; lia).
  rewrite E1, E2, E3, E4 in Hc2. rewrite Hc2.
  split; [reflexivity|].
  unfold img_eq, geom. cbn [raster pil_crop height width px].
  rewrite Hh2, Hw2.
  repeat split; try lia.
  intros y x Hy Hx. f_equal; lia.
Qed.

Lemma crop_twice_witness :
  let image := TestData.gray_rows [[255; 255; 255; 0; 255; 255; 255]] in
  exists cropped again,
    crop_white_edges image 250%Q 1 = Ok cropped
    /\ crop_white_edges cropped 250%Q 1 = Ok again
    /\ arr_eq again cropped.
Proof.
  intros image.
  eexists (geom (pil_crop (2, 0, 5, 1)) image),
          (geom (pil_crop (0, 0, 3, 1)) (geom (pil_crop (2, 0, 5, 1)) image)).
  assert (H1 : crop_white_edges image 250%Q 1
               = Ok (geom (pil_crop (2, 0, 5, 1)) image)) by reflexivity.
  assert (H2 : crop_white_edges (geom (pil_crop (2, 0, 5, 1)) image) 250%Q 1
               = Ok (geom (pil_crop (0, 0, 3, 1))
                          (geom (pil_crop (2, 0, 5, 1)) image)))
    by reflexivity.
  split; [exact H1|]. split; [exact H2|].
  refine (@crop_twice image _ _ 250%Q 1 _ H1 H2). lia.
Defined.

(** The second run need not return: a crop that leaves a single-channel
    image four pixels wide is refused by the channel guard. *)
Example second_crop_can_raise :
  match crop_white_edges
          (TestData.gray_rows [[255; 255; 0; 0; 255; 255; 255]]) 250%Q 1 with
  | Ok cropped =>
      (TestData.intensities cropped, is_ok (crop_white_edges cropped 250%Q 1))
  | Raise _ => ([], true)
  end
  = ([[255; 0; 0; 255]], false).
Proof. reflexivity. Qed.

End CropTwice.
